(** * A shallow embedding of [codesample::matrix<T>] (matrix.h)

    The template parameter [T] must support [+], [*], [T()], [!=] and
    [operator<<]; this is the class [Elem].  A [matrix<T>] object is its
    row store [_data] together with the cache [_cache] holding its
    transpose.  Member functions that mutate the object are state
    transformers over the object; exceptions and undefined behaviour
    (unchecked [operator[]] of [std::vector] out of range) are the two
    failure results of [outcome]. *)

From Stdlib Require Import List Arith Lia ZArith String.
From Stdlib Require Import Ascii DecimalString DecimalNat.
Import ListNotations.
Local Open Scope bool_scope.

(** ** Element capabilities required by the template *)

Class Elem (T : Type) := {
  zero : T;                      (* T() *)
  add : T -> T -> T;             (* operator+ / += *)
  mul : T -> T -> T;             (* operator* *)
  teqb : T -> T -> bool;         (* operator== ; operator!= is its negation *)
  show : T -> string             (* operator<< *)
}.

(** ** Errors and results *)

(** The exceptions thrown by the library: [invalid_dimension(s1, s2)] from
    [dot], [std::out_of_range] from the size check of [multiply], and
    [std::out_of_range] from [std::vector::at]. *)
Inductive error :=
| DimensionMismatch (s1 s2 : nat)
| EmptyOperand
| IndexOutOfRange.

(** [Undefined] is undefined behaviour: an unchecked [std::vector::operator[]]
    out of range. *)
Inductive outcome (A : Type) :=
| Ok (a : A)
| Throw (e : error)
| Undefined.
Arguments Ok {A} a.
Arguments Throw {A} e.
Arguments Undefined {A}.

Definition obind {A B} (o : outcome A) (f : A -> outcome B) : outcome B :=
  match o with
  | Ok a => f a
  | Throw e => Throw e
  | Undefined => Undefined
  end.

Notation "x <- c1 ;; c2" := (obind c1 (fun x => c2))
  (at level 61, c1 at next level, right associativity).

(** Unchecked [std::vector::operator[]]. *)
Definition vidx {A} (v : list A) (i : nat) : outcome A :=
  match nth_error v i with Some x => Ok x | None => Undefined end.

(** Checked [std::vector::at]. *)
Definition vat {A} (v : list A) (i : nat) : outcome A :=
  match nth_error v i with Some x => Ok x | None => Throw IndexOutOfRange end.

(** [v[i] = x] through an unchecked index. *)
Fixpoint vset {A} (v : list A) (i : nat) (x : A) : outcome (list A) :=
  match v, i with
  | [], _ => Undefined
  | _ :: v', O => Ok (x :: v')
  | y :: v', S i' => r <- vset v' i' x ;; Ok (y :: r)
  end.

(** ** A state monad with exceptions

    The state survives an exception: an object mutated before a [throw]
    stays mutated. *)
Definition ST (S A : Type) := S -> S * outcome A.

Definition sret {S A} (a : A) : ST S A := fun s => (s, Ok a).

Definition sbind {S A B} (c : ST S A) (f : A -> ST S B) : ST S B :=
  fun s =>
    match c s with
    | (s', Ok a) => f a s'
    | (s', Throw e) => (s', Throw e)
    | (s', Undefined) => (s', Undefined)
    end.

Definition slift {S A} (o : outcome A) : ST S A := fun s => (s, o).

Notation "x <-- c1 ;; c2" := (sbind c1 (fun x => c2))
  (at level 61, c1 at next level, right associativity).

(** [for (x : l) body] *)
Fixpoint sfor {S} (l : list nat) (body : nat -> ST S unit) : ST S unit :=
  match l with
  | [] => sret tt
  | x :: l' => sbind (body x) (fun _ => sfor l' body)
  end.

Section Matrix.
Context {T : Type} `{Elem T}.

(** ** The object

    [std::list<matrix<T>> _cache] holds at most one matrix: the only
    [push_front] happens when the list is empty.  It is an option. *)
#[local] Set Warnings "-register-all".
Inductive matrix := Mk {
  _data : list (list T);
  _cache : option matrix
}.

(** [matrix(rows, cols, value)] *)
Definition filled (rows cols : nat) (value : T) : matrix :=
  Mk (repeat (repeat value cols) rows) None.

(** [matrix(new_data)] and the initializer-list constructor. *)
Definition of_rows (d : list (list T)) : matrix := Mk d None.

(** [matrix()] *)
Definition empty : matrix := Mk [] None.

Definition rows (m : matrix) : nat := List.length (_data m).

Definition cols (m : matrix) : nat :=
  match _data m with [] => 0 | r0 :: _ => List.length r0 end.

(** [const std::vector<T> &operator[](size_t i) const { return _data.at(i); }] *)
Definition at_ (m : matrix) (i : nat) : outcome (list T) := vat (_data m) i.

(** [std::vector<T> &operator[](size_t i) { _cache.clear(); return _data[i]; }]
    The returned reference is the row index [i]. *)
Definition at_mut (i : nat) : ST matrix nat :=
  fun m => (Mk (_data m) None, r <- vidx (_data m) i ;; Ok i).

(** A write [r[j] = v] through a reference [r] to row [i] obtained from
    [at_mut]: it touches [_data] only. *)
Definition write_ref (i j : nat) (v : T) : ST matrix unit :=
  fun m =>
    match (r <- vidx (_data m) i ;; r' <- vset r j v ;; vset (_data m) i r') with
    | Ok d => (Mk d (_cache m), Ok tt)
    | Throw e => (m, Throw e)
    | Undefined => (m, Undefined)
    end.

(** [m[i][j] = v] *)
Definition assign (i j : nat) (v : T) : ST matrix unit :=
  r <-- at_mut i ;; write_ref r j v.

(** ** [transpose()] *)

(** The branch [if (_data.size() > 0)] of [transpose()]:
<<
    matrix<T> m_T(cols(), rows());
    for (size_t i = 0; i < _data.at(0).size(); i++)
        for (size_t j = 0; j < _data.size(); j++)
            m_T[i][j] = _data[j][i];
>>  *)
Definition compute_transpose (d : list (list T)) : outcome matrix :=
  let this := Mk d None in
  let m_T := filled (cols this) (rows this) zero in
  match
    sfor (seq 0 (cols this)) (fun i =>
      sfor (seq 0 (rows this)) (fun j =>
        x <-- slift (r <- vidx d j ;; vidx r i) ;;
        assign i j x)) m_T
  with
  | (mT, Ok _) => Ok mT
  | (_, Throw e) => Throw e
  | (_, Undefined) => Undefined
  end.

Definition transpose : ST matrix matrix :=
  fun m =>
    match _cache m with
    | Some c => (m, Ok c)                      (* return _cache.front(); *)
    | None =>
        match _data m with
        | [] => (m, Ok m)                      (* return *this; *)
        | _ :: _ =>
            match compute_transpose (_data m) with
            | Ok mT => (Mk (_data m) (Some mT), Ok mT)
            | Throw e => (m, Throw e)
            | Undefined => (m, Undefined)
            end
        end
    end.

(** ** [dot] *)

Definition smodify {S} (f : S -> S) : ST S unit := fun s => (f s, Ok tt).

(**
<<
    if (v1.size() != v2.size()) throw invalid_dimension(v1.size(), v2.size());
    T result = T();
    for (size_t i = 0; i < v1.size(); i++) result += (v1.at(i) * v2.at(i));
    return result;
>>  *)
Definition dot (v1 v2 : list T) : outcome T :=
  if negb (List.length v1 =? List.length v2)
  then Throw (DimensionMismatch (List.length v1) (List.length v2))
  else
    match
      sfor (seq 0 (List.length v1)) (fun i =>
        x <-- slift (vat v1 i) ;;
        y <-- slift (vat v2 i) ;;
        smodify (fun result => add result (mul x y))) zero
    with
    | (result, Ok _) => Ok result
    | (_, Throw e) => Throw e
    | (_, Undefined) => Undefined
    end.

(** ** [multiply(m1, m2)] *)

(** The objects [multiply] touches: [m1], [m2] and the local [result]. *)
Definition mstate : Type := matrix * matrix * matrix.

Definition on_m1 {A} (c : ST matrix A) : ST mstate A :=
  fun '(m1, m2, r) => let (m1', o) := c m1 in ((m1', m2, r), o).

Definition on_m2 {A} (c : ST matrix A) : ST mstate A :=
  fun '(m1, m2, r) => let (m2', o) := c m2 in ((m1, m2', r), o).

Definition on_res {A} (c : ST matrix A) : ST mstate A :=
  fun '(m1, m2, r) => let (r', o) := c r in ((m1, m2, r'), o).

(** Reading the row a reference from [at_mut] designates. *)
Definition deref (i : nat) : ST matrix (list T) := fun m => (m, vidx (_data m) i).

(** [result[i][j] = dot(m1[i], m2.transpose()[j]);]
    [m2.transpose()] is a temporary on which [[j]] is the non-const
    [operator[]]. *)
Definition mul_body (i j : nat) : ST mstate unit :=
  r1 <-- on_m1 (at_mut i) ;;
  row1 <-- on_m1 (deref r1) ;;
  t <-- on_m2 transpose ;;
  rowt <-- slift (k <- snd (at_mut j t) ;; vidx (_data t) k) ;;
  v <-- slift (dot row1 rowt) ;;
  on_res (assign i j v).

(** [static matrix<T> multiply(matrix<T> &m1, matrix<T> &m2)], for two
    distinct objects [m1] and [m2].  It returns the final states of [m1]
    and [m2] and the product.  The loop bounds [m1.rows()] and
    [m2.cols()] are re-read at every iteration; no step of the loop changes
    [_data] of [m1] or [m2], so they are read once here. *)
Definition multiply (m1 m2 : matrix) : (matrix * matrix) * outcome matrix :=
  if (rows m1 =? 0) || (rows m2 =? 0)
  then ((m1, m2), Throw EmptyOperand)
  else
    let result := filled (rows m1) (cols m2) zero in
    match
      sfor (seq 0 (rows m1)) (fun i =>
        sfor (seq 0 (cols m2)) (fun j => mul_body i j)) (m1, m2, result)
    with
    | ((m1', m2', res), o) => ((m1', m2'), _ <- o ;; Ok res)
    end.

(** ** [print] *)

Definition endl : string := String (Ascii.ascii_of_nat 10) EmptyString.

(**
<<
    for (auto row : _data) {
        for (auto item : row) out << item << " ";
        out << std::endl;
    }
>>  *)
Definition print (m : matrix) : string :=
  String.concat "" (map (fun row =>
    String.concat "" (map (fun item => show item ++ " ") row) ++ endl)%string
    (_data m)).

(** ** [operator!=] and [operator==] *)

(** Nested [for] loops with an early [return true]. *)
Fixpoint any_o (l : list nat) (f : nat -> outcome bool) : outcome bool :=
  match l with
  | [] => Ok false
  | x :: l' => b <- f x ;; if b then Ok true else any_o l' f
  end.

(** [_data[i][j]] is unchecked; [rhs[i]] is the const [operator[]]
    ([_data.at(i)]) since [rhs] is a const reference. *)
Definition neq (a b : matrix) : outcome bool :=
  if negb (rows a =? rows b) || negb (cols a =? cols b) then Ok true
  else
    any_o (seq 0 (rows a)) (fun i =>
      any_o (seq 0 (cols a)) (fun j =>
        x <- (r <- vidx (_data a) i ;; vidx r j) ;;
        y <- (r <- at_ b i ;; vidx r j) ;;
        Ok (negb (teqb x y)))).

Definition eq (a b : matrix) : outcome bool :=
  r <- neq a b ;; Ok (negb r).

(** ** Object operations

    The public operations on one object [m], for the cache invariant.
    [OpRowRef i] is [auto &r = m[i];] with the reference kept by the caller;
    [OpWriteRef i j v] is a later [r[j] = v] through it. *)
Inductive op :=
| OpTranspose                         (* m.transpose() *)
| OpAt (i : nat)                      (* const row access *)
| OpRowRef (i : nat)                  (* auto &r = m[i]; *)
| OpWriteRef (i j : nat) (v : T)      (* r[j] = v; for r = m[i] *)
| OpAssign (i j : nat) (v : T)        (* m[i][j] = v; *)
| OpMulLeft (other : matrix)          (* m * other *)
| OpMulRight (other : matrix)         (* other * m *)
| OpCompare (other : matrix)          (* m == other, m != other *)
| OpPrint.                            (* m.print(out) *)

Definition step (o : op) : ST matrix unit :=
  match o with
  | OpTranspose => _ <-- transpose ;; sret tt
  | OpAt i => fun m => (m, _ <- at_ m i ;; Ok tt)
  | OpRowRef i => _ <-- at_mut i ;; sret tt
  | OpWriteRef i j v => write_ref i j v
  | OpAssign i j v => assign i j v
  | OpMulLeft other =>
      fun m => let '((m', _), r) := multiply m other in (m', _ <- r ;; Ok tt)
  | OpMulRight other =>
      fun m => let '((_, m'), r) := multiply other m in (m', _ <- r ;; Ok tt)
  | OpCompare other => fun m => (m, _ <- eq m other ;; Ok tt)
  | OpPrint => fun m => (m, Ok tt)
  end.

Fixpoint run (l : list op) : ST matrix unit :=
  match l with
  | [] => sret tt
  | o :: l' => _ <-- step o ;; run l'
  end.

(** ** Vocabulary of the specification *)

(** A rectangular row store of [r] rows of [c] elements. *)
Definition rect (d : list (list T)) (r c : nat) : Prop :=
  List.length d = r /\ Forall (fun row => List.length row = c) d.

(** The cache holds what [transpose()] computes from the current [_data]. *)
Definition fresh (m : matrix) : Prop :=
  match _cache m with
  | None => True
  | Some c => _data m <> [] /\ compute_transpose (_data m) = Ok c
  end.

(** The element [M[i][j]], when it exists. *)
Definition elem (m : matrix) (i j : nat) : option T :=
  match nth_error (_data m) i with Some r => nth_error r j | None => None end.

(** The [r x c] row store with entries [f i j]. *)
Definition tab (r c : nat) (f : nat -> nat -> T) : list (list T) :=
  map (fun i => map (fun j => f i j) (seq 0 c)) (seq 0 r).

(** The left-to-right sum [T() + g 0 + g 1 + ... + g (n-1)]. *)
Definition sum_lr (n : nat) (g : nat -> T) : T :=
  fold_left (fun acc k => add acc (g k)) (seq 0 n) zero.

(** The transpose of an [r x c] row store. *)
Definition tr_tab (d : list (list T)) (r c : nat) : list (list T) :=
  tab c r (fun i j => nth i (nth j d []) zero).

(** A table with entry [(i, j)] replaced by [x]. *)
Definition upd (f : nat -> nat -> T) i j x : nat -> nat -> T :=
  fun i' j' => if (i' =? i) && (j' =? j) then x else f i' j'.

(** The entry [M[i][j]], with [T()] outside the store. *)
Definition entry (m : matrix) i j : T := nth j (nth i (_data m) []) zero.

(** Row [i] of [m1] times column [j] of [m2], summed left to right. *)
Definition prod_entry (m1 m2 : matrix) i j : T :=
  sum_lr (cols m1) (fun k => mul (entry m1 i k) (entry m2 k j)).

(** The rendering as the specification words it: each row's elements
    separated by a single space, then a line terminator. *)
Definition print_spec (m : matrix) : string :=
  String.concat "" (map (fun row =>
    String.concat " " (map show row) ++ endl)%string (_data m)).

(** The state of [multiply]'s loop before iteration [(i, j)]: the
    operands keep their data, [m2]'s cache stays fresh, and [result] holds
    the entries computed so far. *)
Definition mul_inv (m1 m2 : matrix) r1 c2 i j (s : mstate) : Prop :=
  let '(x1, x2, res) := s in
  _data x1 = _data m1 /\ _data x2 = _data m2 /\ fresh x2 /\
  exists f, res = Mk (tab r1 c2 f) None /\
    forall i' j', i' < r1 -> j' < c2 ->
      f i' j' = if (i' <? i) || ((i' =? i) && (j' <? j)) then prod_entry m1 m2 i' j' else zero.

End Matrix.

Arguments matrix T : clear implicits.
Arguments op T : clear implicits.

(** ** [matrix<int>] *)

#[export] Instance Elem_Z : Elem Z := {
  zero := 0%Z;
  add := Z.add;
  mul := Z.mul;
  teqb := Z.eqb;
  show := fun z => NilZero.string_of_int (Z.to_int z)
}.

Definition mZ (d : list (list Z)) : matrix Z := of_rows d.


(** ** [invalid_dimension(s1, s2).what()] *)

(** [std::to_string(size_t)]: the decimal digits. *)
Definition to_string (n : nat) : string := NilZero.string_of_uint (Nat.to_uint n).

(** [message("Invalid vector dimensions: " + std::to_string(s1) + " != " + std::to_string(s2))] *)
Definition invalid_dimension_what (s1 s2 : nat) : string :=
  ("Invalid vector dimensions: " ++ to_string s1 ++ " != " ++ to_string s2)%string.

(** ** Vocabulary for text *)

Fixpoint no_space (s : string) : bool :=
  match s with
  | EmptyString => true
  | String a s' => negb (Ascii.eqb a " "%char) && no_space s'
  end.

Fixpoint count_char (a : Ascii.ascii) (s : string) : nat :=
  match s with
  | EmptyString => 0
  | String b s' => (if Ascii.eqb a b then 1 else 0) + count_char a s'
  end.

Definition newline : Ascii.ascii := Ascii.ascii_of_nat 10.

(** * Proofs *)

(** ** Loops of the state monad *)

Lemma sfor_cons {S} x l (body : nat -> ST S unit) s :
  sfor (x :: l) body s =
  match body x s with
  | (s', Ok _) => sfor l body s'
  | (s', Throw e) => (s', Throw e)
  | (s', Undefined) => (s', Undefined)
  end.
Proof. reflexivity. Qed.

(** A loop over [a, a+n) whose every iteration succeeds. *)
Lemma sfor_seq {S} (I : nat -> S -> Prop) (body : nat -> ST S unit) n :
  forall a s,
  (forall k s, a <= k < a + n -> I k s ->
     exists s', body k s = (s', Ok tt) /\ I (Datatypes.S k) s') ->
  I a s -> exists s', sfor (seq a n) body s = (s', Ok tt) /\ I (a + n) s'.
Proof.
  induction n as [|n IH]; intros a s Hb Ha.
  - exists s. rewrite Nat.add_0_r. split; [reflexivity | exact Ha].
  - destruct (Hb a s ltac:(lia) Ha) as [s1 [E1 H1]].
    cbn [seq]. rewrite sfor_cons, E1.
    destruct (IH (Datatypes.S a) s1) as [s2 [E2 H2]].
    + intros k s' Hk Hs. apply Hb; [lia | exact Hs].
    + exact H1.
    + exists s2. split; [exact E2|].
      replace (a + Datatypes.S n) with (Datatypes.S a + n) by lia. exact H2.
Qed.

(** A property of the state kept by every iteration, whatever its result. *)
Lemma sfor_preserve {S} (P : S -> Prop) (body : nat -> ST S unit) l :
  forall s, (forall k s, In k l -> P s -> P (fst (body k s))) ->
  P s -> P (fst (sfor l body s)).
Proof.
  induction l as [|x l IH]; intros s Hb Hs; [exact Hs|].
  rewrite sfor_cons.
  pose proof (Hb x s (or_introl eq_refl) Hs) as H1.
  destruct (body x s) as [s' [a| e |]]; simpl in *; try exact H1.
  apply IH; [intros k s'' Hk; apply Hb; right; exact Hk | exact H1].
Qed.

(** A property every iteration establishes holds after a non-empty loop. *)
Lemma sfor_post {S} (P Q : S -> Prop) (body : nat -> ST S unit) l :
  forall s, l <> [] ->
  (forall k s, In k l -> P s -> P (fst (body k s)) /\ Q (fst (body k s))) ->
  P s -> Q (fst (sfor l body s)).
Proof.
  induction l as [|x l IH]; intros s Hne Hb Hs; [congruence|].
  rewrite sfor_cons.
  destruct (Hb x s (or_introl eq_refl) Hs) as [HP HQ].
  destruct (body x s) as [s' [a| e |]]; simpl in *; try exact HQ.
  destruct l as [|y l'].
  - exact HQ.
  - apply IH; [congruence | intros k s'' Hk; apply Hb; right; exact Hk | exact HP].
Qed.

(** ** Vectors *)

Lemma vidx_nth {A} (l : list A) n d :
  n < List.length l -> vidx l n = Ok (nth n l d).
Proof. intros Hn. unfold vidx. rewrite (nth_error_nth' l d Hn). reflexivity. Qed.

Lemma vset_map_seq {A} (g : nat -> A) x n :
  forall a k, k < n ->
  vset (map g (seq a n)) k x
  = Ok (map (fun k' => if k' =? a + k then x else g k') (seq a n)).
Proof.
  induction n as [|n IH]; intros a k Hk; [lia|].
  cbn [seq map]. destruct k as [|k].
  - cbn [vset]. rewrite Nat.add_0_r, Nat.eqb_refl. f_equal. f_equal.
    apply map_ext_in. intros k' Hin. apply in_seq in Hin.
    destruct (Nat.eqb_spec k' a); [lia | reflexivity].
  - cbn [vset]. rewrite (IH (Datatypes.S a) k) by lia. cbn [obind].
    destruct (Nat.eqb_spec a (a + Datatypes.S k)); [lia|].
    f_equal. f_equal. apply map_ext. intros k'.
    now replace (Datatypes.S a + k) with (a + Datatypes.S k) by lia.
Qed.

Lemma list_as_map {A} (l : list A) d :
  l = map (fun i => nth i l d) (seq 0 (List.length l)).
Proof.
  induction l as [|x l IH]; [reflexivity|].
  cbn [List.length seq map nth]. f_equal.
  rewrite <- seq_shift, map_map. exact IH.
Qed.

Section Proofs.
Context {T : Type} `{Elem T}.

(** ** Row stores given by their entries *)

Lemma length_tab r c (f : nat -> nat -> T) : List.length (tab r c f) = r.
Proof. unfold tab. now rewrite length_map, length_seq. Qed.

Lemma nth_error_tab r c (f : nat -> nat -> T) i :
  i < r -> nth_error (tab r c f) i = Some (map (f i) (seq 0 c)).
Proof.
  intros Hi. unfold tab. rewrite nth_error_map, nth_error_seq.
  destruct (Nat.ltb_spec i r); [reflexivity | lia].
Qed.

Lemma rect_tab r c (f : nat -> nat -> T) : rect (tab r c f) r c.
Proof.
  split; [apply length_tab|].
  apply Forall_forall. intros row Hin. unfold tab in Hin.
  apply in_map_iff in Hin as [i [<- _]]. now rewrite length_map, length_seq.
Qed.

Lemma elem_tab r c (f : nat -> nat -> T) ca i j :
  i < r -> j < c -> elem (Mk (tab r c f) ca) i j = Some (f i j).
Proof.
  intros Hi Hj. unfold elem. cbn [_data]. rewrite nth_error_tab by exact Hi.
  rewrite nth_error_map, nth_error_seq. destruct (Nat.ltb_spec j c); [reflexivity | lia].
Qed.

Lemma tab_ext r c (f g : nat -> nat -> T) :
  (forall i j, i < r -> j < c -> f i j = g i j) -> tab r c f = tab r c g.
Proof.
  intros Hfg. unfold tab. apply map_ext_in. intros i Hi. apply in_seq in Hi.
  apply map_ext_in. intros j Hj. apply in_seq in Hj. apply Hfg; lia.
Qed.

Lemma filled_tab r c (v : T) : filled r c v = Mk (tab r c (fun _ _ => v)) None.
Proof.
  unfold filled, tab. f_equal.
  rewrite (map_ext (fun i => map (fun _ => v) (seq 0 c)) (fun _ => repeat v c)).
  - now rewrite map_const, length_seq.
  - intros i. now rewrite map_const, length_seq.
Qed.

Lemma rect_tab_eq (d : list (list T)) r c :
  rect d r c -> d = tab r c (fun i j => nth j (nth i d []) zero).
Proof.
  intros [Hl Hf]. rewrite (list_as_map d []) at 1. rewrite Hl. unfold tab.
  apply map_ext_in. intros i Hi. apply in_seq in Hi.
  rewrite (list_as_map (nth i d []) zero) at 1.
  rewrite Forall_forall in Hf. rewrite (Hf (nth i d [])); [reflexivity|].
  apply nth_In. lia.
Qed.

Lemma rect_row (d : list (list T)) r c j : rect d r c -> j < r -> List.length (nth j d []) = c.
Proof.
  intros [Hl Hf] Hj. rewrite Forall_forall in Hf. apply Hf, nth_In. lia.
Qed.

Lemma rect_cols (d : list (list T)) r c (ca : option (matrix T)) : rect d r c -> 0 < r -> cols (Mk d ca) = c.
Proof.
  intros Hrect Hr. unfold cols. cbn [_data].
  destruct d as [|r0 d'] eqn:Ed.
  - destruct Hrect as [Hl _]. simpl in Hl. lia.
  - apply (rect_row (r0 :: d') r c 0 Hrect Hr).
Qed.

(** ** Element assignment *)

Lemma write_ref_tab r c (f : nat -> nat -> T) ca i j x :
  i < r -> j < c ->
  write_ref i j x (Mk (tab r c f) ca) = (Mk (tab r c (upd f i j x)) ca, Ok tt).
Proof.
  intros Hi Hj. unfold write_ref. cbn [_data _cache].
  unfold vidx. rewrite nth_error_tab by exact Hi. cbn [obind].
  rewrite (vset_map_seq (f i) x c 0 j Hj). cbn [obind].
  unfold tab at 1. rewrite (vset_map_seq _ _ r 0 i Hi). cbn [obind Nat.add].
  do 2 f_equal. unfold tab. apply map_ext. intros i'. unfold upd.
  destruct (Nat.eqb_spec i' i) as [->|Hne]; cbn [andb].
  - apply map_ext. intros j'. reflexivity.
  - reflexivity.
Qed.

Lemma assign_tab r c (f : nat -> nat -> T) ca i j x :
  i < r -> j < c ->
  assign i j x (Mk (tab r c f) ca) = (Mk (tab r c (upd f i j x)) None, Ok tt).
Proof.
  intros Hi Hj. unfold assign, sbind, at_mut. cbn [_data].
  rewrite (vidx_nth _ i []) by (rewrite length_tab; exact Hi). cbn [obind].
  apply write_ref_tab; assumption.
Qed.

(** ** The transpose computation *)

Lemma compute_transpose_rect d r c :
  rect d r c -> 0 < r -> compute_transpose d = Ok (Mk (tr_tab d r c) None).
Proof.
  intros Hrect Hr.
  unfold compute_transpose. rewrite (rect_cols d r c None Hrect Hr).
  unfold rows. cbn [_data]. rewrite (proj1 Hrect), filled_tab.
  set (D := fun i j => nth i (nth j d []) zero).
  lazymatch goal with |- context [sfor (seq 0 c) ?B] =>
  destruct (sfor_seq
    (fun i m => exists f, m = Mk (tab c r f) None /\
       forall i' j', i' < c -> j' < r -> f i' j' = if i' <? i then D i' j' else zero)
    B c 0 (Mk (tab c r (fun _ _ => zero)) None)) as [m [E [f [Em Hfm]]]] end.
  - intros i m Hi [f [Em Hfm]]. subst m. cbv beta.
    lazymatch goal with |- context [sfor (seq 0 r) ?B] =>
    destruct (sfor_seq
      (fun j m => exists g, m = Mk (tab c r g) None /\
         forall i' j', i' < c -> j' < r ->
         g i' j' = if (i' <? i) || ((i' =? i) && (j' <? j)) then D i' j' else zero)
      B r 0 (Mk (tab c r f) None)) as [m [E [g [Em Hg]]]] end.
    + intros j m Hj [g [Em Hg]]. subst m. cbv beta.
      exists (Mk (tab c r (upd g i j (D i j))) None). split.
      * unfold sbind, slift.
        rewrite (vidx_nth d j []) by (rewrite (proj1 Hrect); lia). cbn [obind].
        rewrite (vidx_nth (nth j d []) i zero)
          by (rewrite (rect_row d r c j Hrect); lia).
        apply assign_tab; lia.
      * exists (upd g i j (D i j)). split; [reflexivity|].
        intros i' j' Hi' Hj'. unfold upd. rewrite Hg by assumption.
        destruct (Nat.eqb_spec i' i), (Nat.eqb_spec j' j), (Nat.ltb_spec i' i),
          (Nat.ltb_spec j' j), (Nat.ltb_spec j' (Datatypes.S j)); subst;
          cbn [andb orb]; try reflexivity; lia.
    + exists f. split; [reflexivity|]. intros i' j' Hi' Hj'.
      rewrite Hfm by assumption.
      destruct (Nat.ltb_spec i' i), (Nat.eqb_spec i' i), (Nat.ltb_spec j' 0);
        cbn [andb orb]; try reflexivity; lia.
    + exists m. split; [exact E|]. exists g. split; [exact Em|].
      intros i' j' Hi' Hj'. cbn [Nat.add] in Hg. rewrite Hg by assumption.
      destruct (Nat.ltb_spec i' i), (Nat.eqb_spec i' i), (Nat.ltb_spec i' (Datatypes.S i)),
        (Nat.ltb_spec j' r); cbn [andb orb]; try reflexivity; lia.
  - exists (fun _ _ => zero). split; [reflexivity|].
    intros i' j' _ _. destruct (Nat.ltb_spec i' 0); [lia | reflexivity].
  - cbn [Nat.add] in E. rewrite E. subst m. unfold tr_tab. do 2 f_equal.
    apply tab_ext. intros i j Hi Hj. rewrite Hfm by assumption.
    cbn [Nat.add]. destruct (Nat.ltb_spec i c); [reflexivity | lia].
Qed.

Lemma nth_nth_tab r c (f : nat -> nat -> T) i j :
  i < r -> j < c -> nth j (nth i (tab r c f) []) zero = f i j.
Proof.
  intros Hi Hj.
  rewrite (nth_error_nth (tab r c f) i [] (nth_error_tab r c f i Hi)).
  apply nth_error_nth. rewrite nth_error_map, nth_error_seq.
  destruct (Nat.ltb_spec j c); [reflexivity | lia].
Qed.

Lemma elem_rect (m : matrix T) r c i j :
  rect (_data m) r c -> i < r -> j < c ->
  elem m i j = Some (nth j (nth i (_data m) []) zero).
Proof.
  intros Hrect Hi Hj. unfold elem.
  rewrite (nth_error_nth' (_data m) [] (n := i)) by (rewrite (proj1 Hrect); exact Hi).
  apply nth_error_nth'. rewrite (rect_row _ r c i Hrect Hi). exact Hj.
Qed.

Lemma rect_tr_tab d r c : rect (tr_tab d r c) c r.
Proof. apply rect_tab. Qed.

Lemma tr_tab_tr_tab d r c : rect d r c -> tr_tab (tr_tab d r c) c r = d.
Proof.
  intros Hrect. rewrite (rect_tab_eq d r c Hrect) at 2. unfold tr_tab at 1.
  apply tab_ext. intros i j Hi Hj. unfold tr_tab. apply nth_nth_tab; assumption.
Qed.

(** ** [transpose()] on valid objects *)

Lemma fresh_empty (m : matrix T) : _data m = [] -> fresh m -> _cache m = None.
Proof.
  unfold fresh. intros Hd. destruct (_cache m); [intros [Hne _]; contradiction | reflexivity].
Qed.

Lemma transpose_rect (m : matrix T) r c :
  rect (_data m) r c -> 0 < r -> fresh m ->
  transpose m = (Mk (_data m) (Some (Mk (tr_tab (_data m) r c) None)),
                 Ok (Mk (tr_tab (_data m) r c) None)).
Proof.
  intros Hrect Hr Hf. destruct m as [d ca]. cbn [_data] in *.
  unfold fresh in Hf. cbn [_cache _data] in Hf. unfold transpose. cbn [_cache _data].
  rewrite (compute_transpose_rect d r c Hrect Hr) in *.
  destruct ca as [t|].
  - destruct Hf as [_ Ht]. injection Ht as <-. reflexivity.
  - destruct d as [|r0 d']; [destruct Hrect as [Hl _]; simpl in Hl; lia | reflexivity].
Qed.

Lemma transpose_empty (m : matrix T) : _data m = [] -> fresh m -> transpose m = (m, Ok m).
Proof.
  intros Hd Hf. unfold transpose. rewrite (fresh_empty m Hd Hf), Hd. reflexivity.
Qed.

Lemma transpose_data (m : matrix T) : _data (fst (transpose m)) = _data m.
Proof.
  unfold transpose. destruct (_cache m); [reflexivity|].
  destruct (_data m) eqn:Ed; [cbn; congruence|].
  destruct (compute_transpose (l :: l0)); cbn; congruence.
Qed.

Lemma transpose_fresh (m : matrix T) : fresh m -> fresh (fst (transpose m)).
Proof.
  unfold transpose. destruct (_cache m) eqn:Ec; [tauto|].
  destruct (_data m) eqn:Ed; [tauto|].
  destruct (compute_transpose (l :: l0)) eqn:Et; cbn [fst]; try tauto.
  intros _. unfold fresh. cbn. split; [discriminate | exact Et].
Qed.

(** ** [operator!=] and [operator==] *)

Lemma any_o_ok (l : list nat) f g :
  (forall x, In x l -> f x = Ok (g x)) -> any_o l f = Ok (existsb g l).
Proof.
  induction l as [|x l IH]; intros Hf; [reflexivity|].
  cbn [any_o existsb]. rewrite (Hf x (or_introl eq_refl)). cbn [obind].
  destruct (g x); [reflexivity|]. apply IH. intros y Hy. apply Hf. right. exact Hy.
Qed.

Lemma existsb_seq_false g n :
  existsb g (seq 0 n) = false <-> forall k, k < n -> g k = false.
Proof.
  split.
  - intros Hf k Hk. destruct (g k) eqn:Eg; [|reflexivity].
    assert (existsb g (seq 0 n) = true) by
      (apply existsb_exists; exists k; split; [apply in_seq; lia | exact Eg]).
    congruence.
  - intros Hk. destruct (existsb g (seq 0 n)) eqn:Ee; [|reflexivity].
    apply existsb_exists in Ee as [k [Hin Eg]]. apply in_seq in Hin.
    rewrite Hk in Eg by lia. discriminate.
Qed.

Lemma neq_same_shape (a b : matrix T) ra ca rb cb :
  rect (_data a) ra ca -> rect (_data b) rb cb ->
  rows a = rows b -> cols a = cols b ->
  neq a b = Ok (existsb (fun i => existsb (fun j =>
                  negb (teqb (entry a i j) (entry b i j))) (seq 0 (cols a)))
                (seq 0 (rows a))).
Proof.
  intros Ha Hb Er Ec. unfold neq. rewrite Er, Ec, !Nat.eqb_refl. cbn [negb orb].
  rewrite <- Er, <- Ec.
  apply any_o_ok. intros i Hi. apply in_seq in Hi.
  apply any_o_ok. intros j Hj. apply in_seq in Hj.
  assert (Hra : rows a = ra) by apply (proj1 Ha).
  assert (Hrb : rows b = rb) by apply (proj1 Hb).
  assert (Hca : cols a = ca) by (destruct a; apply (rect_cols _ ra ca _ Ha); lia).
  assert (Hcb : cols b = cb) by (destruct b; apply (rect_cols _ rb cb _ Hb); lia).
  unfold at_, vat. unfold rows in *.
  rewrite (vidx_nth (_data a) i []) by lia. cbn [obind].
  rewrite (vidx_nth _ j zero) by (rewrite (rect_row _ ra ca i Ha); lia). cbn [obind].
  rewrite (nth_error_nth' (_data b) [] (n := i)) by lia.
  cbn [obind]. rewrite (vidx_nth _ j zero) by (rewrite (rect_row _ rb cb i Hb); lia).
  reflexivity.
Qed.

Lemma elem_entry (m : matrix T) r c i j :
  rect (_data m) r c -> i < rows m -> j < cols m -> elem m i j = Some (entry m i j).
Proof.
  intros Hrect Hi Hj.
  assert (Hr : rows m = r) by apply (proj1 Hrect).
  assert (Hc : cols m = c) by (destruct m; apply (rect_cols _ r c _ Hrect); lia).
  apply (elem_rect m r c i j Hrect); lia.
Qed.

Lemma neq_other_shape (a b : matrix T) :
  rows a <> rows b \/ cols a <> cols b -> neq a b = Ok true.
Proof.
  intros Hd. unfold neq.
  destruct Hd as [Hd|Hd]; apply Nat.eqb_neq in Hd; rewrite Hd;
    [reflexivity | now rewrite Bool.orb_true_r].
Qed.

(** ** Claims about [transpose()] *)

(** C1 (as amended).  On a rectangular [r x c] matrix whose cache is fresh,
    [transpose()] succeeds with a matrix [M_T] such that
    [M_T.rows() == M.cols()] and [M_T[j][i] == M[i][j]] for every
    [i < M.rows()], [j < M.cols()]; [M_T.cols() == M.rows()] holds when
    [c > 0] or [r = 0], while a matrix with rows but no columns transposes
    to the empty [0 x 0] matrix. *)
Theorem transpose_contract (m : matrix T) r c :
  rect (_data m) r c -> fresh m ->
  exists m' mT, transpose m = (m', Ok mT) /\
    rows mT = cols m /\
    (0 < c \/ r = 0 -> cols mT = rows m) /\
    (0 < r -> c = 0 -> _data mT = []) /\
    (forall i j, i < rows m -> j < cols m -> elem mT j i = elem m i j).
Proof.
  intros Hrect Hf. destruct (Nat.eq_dec r 0) as [Hr0|Hr].
  - assert (Hd : _data m = []).
    { destruct Hrect as [Hl _]. destruct (_data m); [reflexivity | simpl in Hl; lia]. }
    exists m, m. rewrite (transpose_empty m Hd Hf).
    unfold rows, cols. rewrite Hd. cbn. repeat split; intros; lia.
  - rewrite (transpose_rect m r c Hrect ltac:(lia) Hf).
    destruct m as [d ca]. cbn [_data] in *.
    eexists _, _. split; [reflexivity|].
    assert (Hc : cols (Mk d ca) = c) by (apply (rect_cols d r c ca Hrect); lia).
    assert (Hrows : rows (Mk d ca) = r) by apply (proj1 Hrect).
    rewrite Hc, Hrows. split; [|split; [|split]].
    + unfold rows. cbn [_data]. apply length_tab.
    + intros [Hc0|Hr0]; [|lia].
      apply (rect_cols _ c r None (rect_tr_tab d r c) Hc0).
    + intros _ ->. reflexivity.
    + intros i j Hi Hj. unfold tr_tab.
      rewrite (elem_tab c r _ None j i Hj Hi).
      symmetry. apply (elem_rect (Mk d ca) r c i j Hrect Hi Hj).
Qed.

(** C7 (as amended).  For a rectangular [r x c] matrix [M] with a fresh
    cache: when [r > 0] and [c > 0], [M.transpose().transpose()] has exactly
    the element data of [M]; when [r = 0], [M.transpose()] is [M] itself;
    when [r > 0] and [c = 0], [M.transpose().transpose()] is the empty
    matrix, which [operator==] finds different from [M]. *)
Theorem transpose_involution (m : matrix T) r c :
  rect (_data m) r c -> fresh m ->
  (0 < r -> 0 < c ->
     exists m1 t m2 tt, transpose m = (m1, Ok t) /\ transpose t = (m2, Ok tt) /\
       _data tt = _data m) /\
  (r = 0 -> transpose m = (m, Ok m)) /\
  (0 < r -> c = 0 ->
     exists m1 t m2 tt, transpose m = (m1, Ok t) /\ transpose t = (m2, Ok tt) /\
       _data tt = [] /\ eq tt m = Ok false).
Proof.
  intros Hrect Hf. split; [|split].
  - intros Hr Hc. rewrite (transpose_rect m r c Hrect Hr Hf).
    set (t := Mk (tr_tab (_data m) r c) None).
    assert (Ht : transpose t = (Mk (_data t) (Some (Mk (tr_tab (_data t) c r) None)),
                                Ok (Mk (tr_tab (_data t) c r) None)))
      by (apply (transpose_rect t c r (rect_tr_tab _ r c) Hc); exact I).
    do 4 eexists. split; [reflexivity|]. split; [exact Ht|].
    cbn [_data t]. apply tr_tab_tr_tab. exact Hrect.
  - intros Hr0. apply transpose_empty; [|exact Hf].
    destruct Hrect as [Hl _]. destruct (_data m); [reflexivity | simpl in Hl; lia].
  - intros Hr Hc0. rewrite (transpose_rect m r c Hrect Hr Hf). subst c.
    do 4 eexists. split; [reflexivity|]. split; [reflexivity|].
    split; [reflexivity|].
    unfold eq. rewrite neq_other_shape; [reflexivity|]. left.
    unfold rows. rewrite (proj1 Hrect). cbn. lia.
Qed.

(** ** Claims about [operator==] and [operator!=] *)

(** C8.  For rectangular [A] and [B], [A == B] is [true] exactly when they
    have the same [rows()] and [cols()] and every pair of corresponding
    elements compares equal; [A != B] is the negation of [A == B]; neither
    depends on the transpose caches, and both are pure (they return a
    value and no new object state). *)
Theorem matrix_equality (a b : matrix T) ra ca rb cb :
  rect (_data a) ra ca -> rect (_data b) rb cb ->
  (eq a b = Ok true <->
     rows a = rows b /\ cols a = cols b /\
     forall i j, i < rows a -> j < cols a ->
       exists x y, elem a i j = Some x /\ elem b i j = Some y /\ teqb x y = true) /\
  (exists v, eq a b = Ok v /\ neq a b = Ok (negb v)) /\
  (forall ka kb, neq (Mk (_data a) ka) (Mk (_data b) kb) = neq a b /\
                 eq (Mk (_data a) ka) (Mk (_data b) kb) = eq a b).
Proof.
  intros Ha Hb.
  assert (Hind : forall ka kb, neq (Mk (_data a) ka) (Mk (_data b) kb) = neq a b /\
                 eq (Mk (_data a) ka) (Mk (_data b) kb) = eq a b)
    by (intros; split; reflexivity).
  destruct (Nat.eq_dec (rows a) (rows b)) as [Er|Er];
    [destruct (Nat.eq_dec (cols a) (cols b)) as [Ec|Ec]|].
  - split; [|split; [|exact Hind]];
      unfold eq; rewrite (neq_same_shape a b ra ca rb cb Ha Hb Er Ec); cbn [obind].
    + split.
      * intros Hv. injection Hv as Hv. apply Bool.negb_true_iff in Hv.
        rewrite existsb_seq_false in Hv.
        split; [exact Er|]. split; [exact Ec|]. intros i j Hi Hj.
        specialize (Hv i Hi). rewrite existsb_seq_false in Hv.
        specialize (Hv j Hj). apply Bool.negb_false_iff in Hv.
        exists (entry a i j), (entry b i j). split; [|split; [|exact Hv]].
        -- apply (elem_entry a ra ca); assumption.
        -- apply (elem_entry b rb cb); [exact Hb | lia | lia].
      * intros [_ [_ Hall]]. f_equal. apply Bool.negb_true_iff.
        apply existsb_seq_false. intros i Hi. apply existsb_seq_false.
        intros j Hj. apply Bool.negb_false_iff.
        destruct (Hall i j Hi Hj) as [x [y [Ex [Ey Exy]]]].
        rewrite (elem_entry a ra ca i j Ha Hi Hj) in Ex.
        rewrite (elem_entry b rb cb i j Hb ltac:(lia) ltac:(lia)) in Ey.
        injection Ex as <-. injection Ey as <-. exact Exy.
    + eexists. split; [reflexivity|]. now rewrite Bool.negb_involutive.
  - split; [|split; [|exact Hind]];
      unfold eq; rewrite neq_other_shape by (right; exact Ec); cbn [obind negb].
    + split; [discriminate | intros [_ [Hc _]]; contradiction].
    + exists false. split; reflexivity.
  - split; [|split; [|exact Hind]];
      unfold eq; rewrite neq_other_shape by (left; exact Er); cbn [obind negb].
    + split; [discriminate | intros [Hr _]; contradiction].
    + exists false. split; reflexivity.
Qed.

(** ** [dot] *)

Lemma sum_lr_S n (g : nat -> T) : sum_lr (Datatypes.S n) g = add (sum_lr n g) (g n).
Proof. unfold sum_lr. rewrite seq_S, fold_left_app. reflexivity. Qed.

Lemma sum_lr_ext n (g g' : nat -> T) :
  (forall k, k < n -> g k = g' k) -> sum_lr n g = sum_lr n g'.
Proof.
  induction n as [|n IH]; intros Hg; [reflexivity|].
  rewrite !sum_lr_S, (Hg n) by lia. f_equal. apply IH. intros k Hk. apply Hg. lia.
Qed.

Lemma dot_ok (v1 v2 : list T) :
  List.length v1 = List.length v2 ->
  dot v1 v2 = Ok (sum_lr (List.length v1) (fun k => mul (nth k v1 zero) (nth k v2 zero))).
Proof.
  intros Hl. unfold dot. rewrite Hl, Nat.eqb_refl. cbn [negb]. rewrite <- Hl.
  set (g := fun k => mul (nth k v1 zero) (nth k v2 zero)).
  lazymatch goal with |- context [sfor (seq 0 _) ?B] =>
  destruct (sfor_seq (fun k acc => acc = sum_lr k g) B (List.length v1) 0 zero)
    as [acc [E Hacc]] end.
  - intros k acc Hk ->. cbv beta. eexists. split.
    + unfold sbind, slift, vat.
      rewrite (nth_error_nth' v1 zero (n := k)) by lia.
      rewrite (nth_error_nth' v2 zero (n := k)) by lia. reflexivity.
    + rewrite sum_lr_S. reflexivity.
  - reflexivity.
  - rewrite E. cbn [Nat.add] in Hacc. now subst acc.
Qed.

Lemma dot_mismatch (v1 v2 : list T) :
  List.length v1 <> List.length v2 ->
  dot v1 v2 = Throw (DimensionMismatch (List.length v1) (List.length v2)).
Proof. intros Hl. unfold dot. apply Nat.eqb_neq in Hl. now rewrite Hl. Qed.

Lemma dot_no_empty (v1 v2 : list T) : dot v1 v2 <> Throw EmptyOperand.
Proof.
  destruct (Nat.eq_dec (List.length v1) (List.length v2)) as [E|E].
  - rewrite dot_ok by exact E. discriminate.
  - rewrite dot_mismatch by exact E. discriminate.
Qed.

(** ** One iteration of [multiply] *)

Lemma at_mut_in (m : matrix T) i :
  i < rows m -> at_mut i m = (Mk (_data m) None, Ok i).
Proof.
  intros Hi. unfold at_mut. rewrite (vidx_nth _ i []) by exact Hi. reflexivity.
Qed.

Lemma nth_map_seq (g : nat -> T) n k : k < n -> nth k (map g (seq 0 n)) zero = g k.
Proof.
  intros Hk. apply nth_error_nth. rewrite nth_error_map, nth_error_seq.
  destruct (Nat.ltb_spec k n); [reflexivity | lia].
Qed.

Lemma mul_body_ok (m1 m2 x1 x2 : matrix T) r1 c1 c2 f i j :
  rect (_data m1) r1 c1 -> rect (_data m2) c1 c2 -> 0 < r1 -> 0 < c1 ->
  _data x1 = _data m1 -> _data x2 = _data m2 -> fresh x2 -> i < r1 -> j < c2 ->
  mul_body i j (x1, x2, Mk (tab r1 c2 f) None) =
  ((Mk (_data m1) None, Mk (_data m2) (Some (Mk (tr_tab (_data m2) c1 c2) None)),
    Mk (tab r1 c2 (upd f i j (prod_entry m1 m2 i j))) None), Ok tt).
Proof.
  intros H1 H2 Hr1 Hc1 Ex1 Ex2 Hf2 Hi Hj.
  assert (HA : at_mut i x1 = (Mk (_data m1) None, Ok i)).
  { rewrite at_mut_in; [now rewrite Ex1 | unfold rows; rewrite Ex1, (proj1 H1); exact Hi]. }
  assert (HT : transpose x2 = (Mk (_data m2) (Some (Mk (tr_tab (_data m2) c1 c2) None)),
                               Ok (Mk (tr_tab (_data m2) c1 c2) None))).
  { rewrite <- Ex2 in H2 |- *. apply (transpose_rect x2 c1 c2 H2 Hc1 Hf2). }
  assert (HR : (k <- snd (at_mut j (Mk (tr_tab (_data m2) c1 c2) None)) ;;
                vidx (_data (Mk (tr_tab (_data m2) c1 c2) None)) k)
               = Ok (map (fun k => nth j (nth k (_data m2) []) zero) (seq 0 c1))).
  { unfold at_mut, vidx. cbn [_data snd]. unfold tr_tab.
    rewrite nth_error_tab by exact Hj. cbn [obind].
    rewrite nth_error_tab by exact Hj. reflexivity. }
  assert (HD : dot (nth i (_data m1) []) (map (fun k => nth j (nth k (_data m2) []) zero) (seq 0 c1))
               = Ok (prod_entry m1 m2 i j)).
  { rewrite dot_ok by (rewrite length_map, length_seq; apply (rect_row _ r1 c1 i H1 Hi)).
    f_equal. unfold prod_entry.
    rewrite (rect_row _ r1 c1 i H1 Hi). destruct m1 as [d1 k1].
    rewrite (rect_cols d1 r1 c1 k1 H1 Hr1).
    apply sum_lr_ext. intros k Hk. unfold entry. cbn [_data].
    rewrite (nth_map_seq (fun k => nth j (nth k (_data m2) []) zero) c1 k Hk).
    reflexivity. }
  unfold mul_body, sbind, on_m1, on_m2, on_res, slift.
  rewrite HA. cbv beta iota. unfold deref. cbn [_data].
  rewrite (vidx_nth _ i []) by (rewrite (proj1 H1); exact Hi). cbv beta iota.
  rewrite HT. cbv beta iota. rewrite HR. cbv beta iota. rewrite HD. cbv beta iota.
  rewrite assign_tab by assumption. reflexivity.
Qed.

Lemma fresh_cached (d : list (list T)) r c :
  rect d r c -> 0 < r -> fresh (Mk d (Some (Mk (tr_tab d r c) None))).
Proof.
  intros Hrect Hr. unfold fresh. cbn [_cache _data]. split.
  - intros ->. destruct Hrect as [Hl _]. simpl in Hl. lia.
  - apply compute_transpose_rect; assumption.
Qed.

Lemma rows_pos (m : matrix T) r c : rect (_data m) r c -> 0 < r -> (rows m =? 0) = false.
Proof. intros Hrect Hr. apply Nat.eqb_neq. unfold rows. rewrite (proj1 Hrect). lia. Qed.

Lemma multiply_loop (m1 m2 : matrix T) r1 c1 c2 :
  rect (_data m1) r1 c1 -> rect (_data m2) c1 c2 -> 0 < r1 -> 0 < c1 -> fresh m2 ->
  exists x1 x2 f,
    sfor (seq 0 r1) (fun i => sfor (seq 0 c2) (fun j => mul_body i j))
      (m1, m2, Mk (tab r1 c2 (fun _ _ => zero)) None)
    = ((x1, x2, Mk (tab r1 c2 f) None), Ok tt) /\
    forall i j, i < r1 -> j < c2 -> f i j = prod_entry m1 m2 i j.
Proof.
  intros H1 H2 Hr1 Hc1 Hf2.
  destruct (sfor_seq (fun i s => mul_inv m1 m2 r1 c2 i 0 s)
    (fun i => sfor (seq 0 c2) (fun j => mul_body i j)) r1 0
    (m1, m2, Mk (tab r1 c2 (fun _ _ => zero)) None)) as [[[x1 x2] res] [E Hinv]].
  - intros i [[x1 x2] res] Hi Hinv. cbv beta.
    destruct (sfor_seq (fun j s => mul_inv m1 m2 r1 c2 i j s)
      (fun j => mul_body i j) c2 0 (x1, x2, res)) as [s' [E' Hinv']].
    + intros j [[y1 y2] rs] Hj [Ey1 [Ey2 [Fy2 [g [Eg Hg]]]]]. subst rs.
      rewrite (mul_body_ok m1 m2 y1 y2 r1 c1 c2 g i j H1 H2 Hr1 Hc1 Ey1 Ey2 Fy2)
        by lia.
      eexists. split; [reflexivity|].
      split; [reflexivity|]. split; [reflexivity|].
      split; [apply fresh_cached; assumption|].
      eexists. split; [reflexivity|].
      intros i' j' Hi' Hj'. unfold upd. rewrite Hg by assumption.
      destruct (Nat.eqb_spec i' i), (Nat.eqb_spec j' j), (Nat.ltb_spec i' i),
        (Nat.ltb_spec j' j), (Nat.ltb_spec j' (Datatypes.S j)); subst;
        cbn [andb orb]; try reflexivity; lia.
    + destruct Hinv as [E1 [E2 [F2 [f [Ef Hf]]]]].
      split; [exact E1|]. split; [exact E2|]. split; [exact F2|].
      exists f. split; [exact Ef|]. intros i' j' Hi' Hj'. rewrite Hf by assumption.
      destruct (Nat.ltb_spec i' i), (Nat.eqb_spec i' i), (Nat.ltb_spec j' 0);
        cbn [andb orb]; try reflexivity; lia.
    + exists s'. split; [exact E'|].
      destruct s' as [[y1 y2] rs]. destruct Hinv' as [E1 [E2 [F2 [f [Ef Hf]]]]].
      split; [exact E1|]. split; [exact E2|]. split; [exact F2|].
      exists f. split; [exact Ef|]. intros i' j' Hi' Hj'.
      cbn [Nat.add] in Hf. rewrite Hf by assumption.
      destruct (Nat.ltb_spec i' i), (Nat.eqb_spec i' i), (Nat.ltb_spec i' (Datatypes.S i)),
        (Nat.ltb_spec j' c2), (Nat.eqb_spec i' (Datatypes.S i)), (Nat.ltb_spec j' 0);
        cbn [andb orb]; try reflexivity; lia.
  - split; [reflexivity|]. split; [reflexivity|]. split; [exact Hf2|].
    exists (fun _ _ => zero). split; [reflexivity|].
    intros i' j' _ _. destruct (Nat.ltb_spec i' 0), (Nat.eqb_spec i' 0), (Nat.ltb_spec j' 0);
      cbn [andb orb]; try reflexivity; lia.
  - destruct Hinv as [_ [_ [_ [f [Ef Hf]]]]]. subst res.
    exists x1, x2, f. split; [exact E|].
    intros i j Hi Hj. cbn [Nat.add] in Hf. rewrite Hf by assumption.
    destruct (Nat.ltb_spec i r1); [reflexivity | lia].
Qed.

(** ** Claims about [multiply] *)

(** C3 (as amended).  For rectangular [m1] ([r1 x c1]) and [m2] ([r2 x c2]) with
    [r1 > 0], [r2 > 0], [c1 = r2] and a fresh cache on [m2],
    [multiply(m1, m2)] returns a matrix of shape [m1.rows() x m2.cols()]
    whose entry [(i, j)] is the left-to-right sum, from [T()], of
    [m1[i][k] * m2[k][j]] over [k < m1.cols()]. *)
Theorem multiply_correct (m1 m2 : matrix T) r1 c1 r2 c2 :
  rect (_data m1) r1 c1 -> rect (_data m2) r2 c2 ->
  0 < r1 -> 0 < r2 -> c1 = r2 -> fresh m2 ->
  exists m1' m2' p, multiply m1 m2 = ((m1', m2'), Ok p) /\
    rows p = rows m1 /\ cols p = cols m2 /\
    forall i j, i < rows m1 -> j < cols m2 ->
      elem p i j = Some (sum_lr (cols m1) (fun k => mul (entry m1 i k) (entry m2 k j))).
Proof.
  intros H1 H2 Hr1 Hr2 <- Hf2.
  assert (Hrows1 : rows m1 = r1) by apply (proj1 H1).
  assert (Hcols2 : cols m2 = c2) by (destruct m2; apply (rect_cols _ c1 c2 _ H2 Hr2)).
  destruct (multiply_loop m1 m2 r1 c1 c2 H1 H2 Hr1 Hr2 Hf2) as [x1 [x2 [f [E Hf]]]].
  unfold multiply. rewrite (rows_pos m1 r1 c1 H1 Hr1), (rows_pos m2 c1 c2 H2 Hr2).
  cbn [orb]. rewrite Hrows1, Hcols2, filled_tab, E. cbn [obind].
  do 3 eexists. split; [reflexivity|].
  split; [unfold rows; cbn [_data]; apply length_tab|].
  split; [apply (rect_cols _ r1 c2 None (rect_tab r1 c2 f) Hr1)|].
  intros i j Hi Hj.
  rewrite (elem_tab r1 c2 f None i j Hi Hj), Hf by assumption. reflexivity.
Qed.

(** ** What an iteration of [multiply] may do *)

Lemma sbind_pres {S A B} (P : S -> Prop) (c : ST S A) (f : A -> ST S B) :
  (forall s, P s -> P (fst (c s))) -> (forall a s, P s -> P (fst (f a s))) ->
  forall s, P s -> P (fst (sbind c f s)).
Proof.
  intros Hc Hf s Hs. unfold sbind. specialize (Hc s Hs).
  destruct (c s) as [s' [a| e |]]; cbn [fst] in *; auto.
Qed.

Lemma sbind_no_throw {S A B} e (c : ST S A) (f : A -> ST S B) :
  (forall s, snd (c s) <> Throw e) -> (forall a s, snd (f a s) <> Throw e) ->
  forall s, snd (sbind c f s) <> Throw e.
Proof.
  intros Hc Hf s. unfold sbind. specialize (Hc s).
  destruct (c s) as [s' [a| e' |]]; cbn [snd] in *;
    [apply Hf | intros Hu; injection Hu as ->; apply Hc; reflexivity
    | intros Hu; discriminate Hu].
Qed.

Lemma sfor_no_throw {S} e (body : nat -> ST S unit) l :
  (forall k s, snd (body k s) <> Throw e) -> forall s, snd (sfor l body s) <> Throw e.
Proof.
  intros Hb. induction l as [|x l IH]; intros s; [discriminate|].
  cbn [sfor]. apply sbind_no_throw; [apply Hb | intros _; apply IH].
Qed.

Lemma vset_no_throw {A} (v : list A) i x e : vset v i x <> Throw e.
Proof.
  revert i. induction v as [|y v IH]; intros [|i]; cbn [vset]; try discriminate.
  specialize (IH i). destruct (vset v i x); cbn [obind]; congruence.
Qed.

Lemma vidx_no_throw {A} (v : list A) i e : vidx v i <> Throw e.
Proof. unfold vidx. destruct (nth_error v i); discriminate. Qed.

Lemma at_mut_no_throw i (m : matrix T) e : snd (at_mut i m) <> Throw e.
Proof.
  unfold at_mut. cbn [snd]. pose proof (vidx_no_throw (_data m) i e).
  destruct (vidx (_data m) i); cbn [obind]; congruence.
Qed.

Lemma write_ref_no_throw i j v (m : matrix T) e : snd (write_ref i j v m) <> Throw e.
Proof.
  unfold write_ref.
  destruct (vidx (_data m) i) as [r| e1 |] eqn:E1; cbn [obind].
  - destruct (vset r j v) as [r'| e2 |] eqn:E2; cbn [obind].
    + destruct (vset (_data m) i r') as [d| e3 |] eqn:E3; cbn [snd]; try discriminate.
      exfalso. exact (vset_no_throw _ _ _ e3 E3).
    + exfalso. exact (vset_no_throw _ _ _ e2 E2).
    + discriminate.
  - exfalso. exact (vidx_no_throw _ _ e1 E1).
  - discriminate.
Qed.

Lemma assign_no_throw i j v e : forall m : matrix T, snd (assign i j v m) <> Throw e.
Proof.
  unfold assign. apply sbind_no_throw.
  - intros m. apply at_mut_no_throw.
  - intros r m. apply write_ref_no_throw.
Qed.

Lemma compute_transpose_no_throw (d : list (list T)) e : compute_transpose d <> Throw e.
Proof.
  unfold compute_transpose.
  lazymatch goal with |- context [sfor ?l ?B ?s0] =>
    pose proof (sfor_no_throw e B l) as Hl end.
  lazymatch type of Hl with ?P -> _ =>
    assert (HP : P) end.
  { intros k s. apply sfor_no_throw. intros j s'. apply sbind_no_throw.
    - intros s''. unfold slift. cbn [snd].
      destruct (vidx d j) eqn:Ev; cbn [obind];
        [apply vidx_no_throw | exfalso; exact (vidx_no_throw _ _ _ Ev) | discriminate].
    - intros x s''. apply assign_no_throw. }
  specialize (Hl HP).
  lazymatch goal with |- context [sfor ?l ?B ?s0] => specialize (Hl s0);
    destruct (sfor l B s0) as [mT [u| e' |]] end; cbn [snd] in Hl; congruence.
Qed.

Lemma transpose_no_throw (m : matrix T) e : snd (transpose m) <> Throw e.
Proof.
  unfold transpose. destruct (_cache m); [discriminate|].
  destruct (_data m) as [|r0 d]; [discriminate|].
  pose proof (compute_transpose_no_throw (r0 :: d) e).
  destruct (compute_transpose (r0 :: d)); cbn [snd]; congruence.
Qed.

(** An iteration throws only what [dot] throws. *)
Lemma mul_body_no_empty i j : forall s, snd (mul_body i j s) <> Throw EmptyOperand.
Proof.
  unfold mul_body.
  apply sbind_no_throw; [intros [[x1 x2] r]; unfold on_m1;
    destruct (at_mut i x1) eqn:E; cbn [snd];
    pose proof (at_mut_no_throw i x1 EmptyOperand) as Hn; rewrite E in Hn; exact Hn|].
  intros r1. apply sbind_no_throw; [intros [[x1 x2] r]; unfold on_m1, deref; cbn [snd];
    apply vidx_no_throw|].
  intros row1. apply sbind_no_throw; [intros [[x1 x2] r]; unfold on_m2;
    destruct (transpose x2) eqn:E; cbn [snd];
    pose proof (transpose_no_throw x2 EmptyOperand) as Hn; rewrite E in Hn; exact Hn|].
  intros t. apply sbind_no_throw; [intros s; unfold slift; cbn [snd];
    pose proof (at_mut_no_throw j t EmptyOperand) as Hn;
    destruct (snd (at_mut j t)); cbn [obind]; [apply vidx_no_throw | congruence | discriminate]|].
  intros rowt. apply sbind_no_throw; [intros s; apply dot_no_empty|].
  intros v [[x1 x2] r]. unfold on_res.
  destruct (assign i j v r) eqn:E; cbn [snd].
  pose proof (assign_no_throw i j v EmptyOperand r) as Hn; rewrite E in Hn; exact Hn.
Qed.

(** An iteration changes [m1] only as [at_mut] does and [m2] only as
    [transpose()] does. *)
Lemma mul_body_pres (P1 P2 : matrix T -> Prop) i j :
  (forall m, P1 m -> P1 (fst (at_mut i m))) ->
  (forall m, P2 m -> P2 (fst (transpose m))) ->
  forall s, P1 (fst (fst s)) /\ P2 (snd (fst s)) ->
  P1 (fst (fst (fst (mul_body i j s)))) /\ P2 (snd (fst (fst (mul_body i j s)))).
Proof.
  intros H1 H2.
  set (Q := fun s : mstate => P1 (fst (fst s)) /\ P2 (snd (fst s))).
  change (forall s, Q s -> Q (fst (mul_body i j s))). unfold mul_body.
  apply (sbind_pres Q); [intros [[x1 x2] r]; unfold Q, on_m1;
    destruct (at_mut i x1) eqn:E; cbn; intros [Hx1 Hx2];
    specialize (H1 x1 Hx1); rewrite E in H1; auto|].
  intros r1. apply (sbind_pres Q); [intros [[x1 x2] r]; unfold Q, on_m1, deref; cbn; auto|].
  intros row1. apply (sbind_pres Q); [intros [[x1 x2] r]; unfold Q, on_m2;
    destruct (transpose x2) eqn:E; cbn; intros [Hx1 Hx2];
    specialize (H2 x2 Hx2); rewrite E in H2; auto|].
  intros t. apply (sbind_pres Q); [intros s; unfold slift; cbn; auto|].
  intros rowt. apply (sbind_pres Q); [intros s; unfold slift; cbn; auto|].
  intros v [[x1 x2] r]. unfold Q, on_res. destruct (assign i j v r). cbn. auto.
Qed.

Lemma multiply_pres (P1 P2 : matrix T -> Prop) (m1 m2 : matrix T) :
  (forall i m, P1 m -> P1 (fst (at_mut i m))) ->
  (forall m, P2 m -> P2 (fst (transpose m))) ->
  P1 m1 -> P2 m2 ->
  P1 (fst (fst (multiply m1 m2))) /\ P2 (snd (fst (multiply m1 m2))).
Proof.
  intros H1 H2 Hm1 Hm2. unfold multiply.
  destruct ((rows m1 =? 0) || (rows m2 =? 0)); [cbn; auto|].
  lazymatch goal with |- context [sfor ?l ?B ?s0] =>
    pose proof (sfor_preserve (fun s : mstate => P1 (fst (fst s)) /\ P2 (snd (fst s)))
                  B l s0) as Hp;
    destruct (sfor l B s0) as [[[y1 y2] res] o] end.
  cbn [fst snd] in *. apply Hp; [|cbn; auto].
  intros k s _.
  apply (sfor_preserve (fun s : mstate => P1 (fst (fst s)) /\ P2 (snd (fst s)))).
  intros j s' _. exact (mul_body_pres P1 P2 k j (H1 k) H2 s').
Qed.

(** C5.  [multiply(m1, m2)] throws the size error exactly when one of the
    operands has no rows, and then it throws before any computation:
    both operands are left as they were. *)
Theorem multiply_empty_operand (m1 m2 : matrix T) :
  (snd (multiply m1 m2) = Throw EmptyOperand <-> rows m1 = 0 \/ rows m2 = 0) /\
  (rows m1 = 0 \/ rows m2 = 0 -> multiply m1 m2 = ((m1, m2), Throw EmptyOperand)).
Proof.
  unfold multiply.
  destruct (Nat.eqb_spec (rows m1) 0) as [E1|E1], (Nat.eqb_spec (rows m2) 0) as [E2|E2];
    cbn [orb]; try (split; [split; [intros _; tauto | intros _; reflexivity] | intros _; reflexivity]).
  split; [|intros [?|?]; contradiction].
  split; [|intros [?|?]; contradiction].
  lazymatch goal with |- context [sfor ?l ?B ?s0] =>
    pose proof (sfor_no_throw EmptyOperand B l) as Hl;
    lazymatch type of Hl with ?P -> _ => assert (HP : P) end;
    [ intros k s; apply sfor_no_throw; intros j s'; apply mul_body_no_empty
    | specialize (Hl HP s0); destruct (sfor l B s0) as [[[y1 y2] res] o] ] end.
  cbn [snd] in *. destruct o; cbn [obind]; congruence.
Qed.

(** ** [multiply] when [m2] has no columns *)

Lemma sfor_skip {S} (l : list nat) (body : nat -> ST S unit) :
  (forall k s, body k s = (s, Ok tt)) -> forall s, sfor l body s = (s, Ok tt).
Proof.
  intros Hb. induction l as [|x l IH]; intros s; [reflexivity|].
  rewrite sfor_cons, Hb. apply IH.
Qed.

Lemma multiply_no_cols (m1 m2 : matrix T) :
  rows m1 <> 0 -> rows m2 <> 0 -> cols m2 = 0 ->
  multiply m1 m2 = ((m1, m2), Ok (filled (rows m1) 0 zero)).
Proof.
  intros E1 E2 Ec. unfold multiply.
  apply Nat.eqb_neq in E1, E2. rewrite E1, E2, Ec. cbn [orb seq].
  rewrite sfor_skip; [reflexivity | intros k s; reflexivity].
Qed.

(** An iteration whose row of [m1] and column of [m2] differ in length. *)
Lemma mul_body_mismatch (m1 m2 res : matrix T) r1 c1 r2 c2 i j :
  rect (_data m1) r1 c1 -> rect (_data m2) r2 c2 -> 0 < r2 -> fresh m2 ->
  i < r1 -> j < c2 -> c1 <> r2 ->
  exists s', mul_body i j (m1, m2, res) = (s', Throw (DimensionMismatch c1 r2)).
Proof.
  intros H1 H2 Hr2 Hf2 Hi Hj Hne.
  assert (HA : at_mut i m1 = (Mk (_data m1) None, Ok i))
    by (apply at_mut_in; unfold rows; rewrite (proj1 H1); exact Hi).
  assert (HR : (k <- snd (at_mut j (Mk (tr_tab (_data m2) r2 c2) None)) ;;
                vidx (_data (Mk (tr_tab (_data m2) r2 c2) None)) k)
               = Ok (map (fun k => nth j (nth k (_data m2) []) zero) (seq 0 r2))).
  { unfold at_mut, vidx. cbn [_data snd]. unfold tr_tab.
    rewrite nth_error_tab by exact Hj. cbn [obind].
    rewrite nth_error_tab by exact Hj. reflexivity. }
  assert (HD : dot (nth i (_data m1) []) (map (fun k => nth j (nth k (_data m2) []) zero) (seq 0 r2))
               = Throw (DimensionMismatch c1 r2)).
  { rewrite dot_mismatch; rewrite length_map, length_seq, (rect_row _ r1 c1 i H1 Hi);
      [reflexivity | exact Hne]. }
  unfold mul_body, sbind, on_m1, on_m2, slift.
  rewrite HA. cbv beta iota. unfold deref. cbn [_data].
  rewrite (vidx_nth _ i []) by (rewrite (proj1 H1); exact Hi). cbv beta iota.
  rewrite (transpose_rect m2 r2 c2 H2 Hr2 Hf2). cbv beta iota.
  rewrite HR. cbv beta iota. rewrite HD. eexists. reflexivity.
Qed.

(** C6 (as amended).  [dot] throws [invalid_dimension(v1.size(), v2.size())] exactly
    when the lengths differ.  For rectangular operands with rows, with
    [m1.cols() != m2.rows()], this exception leaves [multiply(m1, m2)]
    when [m2] has at least one column (and a fresh cache); when [m2] has no
    column the loop body never runs and [multiply] returns an
    [m1.rows() x 0] matrix without any error. *)
Theorem dot_dimension_mismatch :
  (forall v1 v2 : list T,
     (exists s1 s2, dot v1 v2 = Throw (DimensionMismatch s1 s2))
     <-> List.length v1 <> List.length v2) /\
  (forall v1 v2 : list T, List.length v1 <> List.length v2 ->
     dot v1 v2 = Throw (DimensionMismatch (List.length v1) (List.length v2))) /\
  (forall (m1 m2 : matrix T) r1 c1 r2 c2,
     rect (_data m1) r1 c1 -> rect (_data m2) r2 c2 -> 0 < r1 -> 0 < r2 ->
     c1 <> r2 -> 0 < c2 -> fresh m2 ->
     exists m1' m2', multiply m1 m2 = ((m1', m2'), Throw (DimensionMismatch c1 r2))) /\
  (forall (m1 m2 : matrix T) r1 c1 r2,
     rect (_data m1) r1 c1 -> rect (_data m2) r2 0 -> 0 < r1 -> 0 < r2 ->
     multiply m1 m2 = ((m1, m2), Ok (filled r1 0 zero))).
Proof.
  split; [|split; [|split]].
  - intros v1 v2. split.
    + intros [s1 [s2 E]] Hl. rewrite dot_ok in E by exact Hl. discriminate.
    + intros Hl. rewrite dot_mismatch by exact Hl. eauto.
  - exact dot_mismatch.
  - intros m1 m2 r1 c1 r2 c2 H1 H2 Hr1 Hr2 Hne Hc2 Hf2.
    unfold multiply. rewrite (rows_pos m1 r1 c1 H1 Hr1), (rows_pos m2 r2 c2 H2 Hr2).
    destruct m2 as [d2 k2]. rewrite (rect_cols d2 r2 c2 k2 H2 Hr2).
    assert (Er1 : rows m1 = r1) by apply (proj1 H1). rewrite Er1.
    destruct r1 as [|r1']; [lia|]. destruct c2 as [|c2']; [lia|].
    cbn [orb seq]. rewrite sfor_cons. cbv beta. rewrite sfor_cons.
    destruct (mul_body_mismatch m1 (Mk d2 k2) (filled (Datatypes.S r1') (Datatypes.S c2') zero)
                (Datatypes.S r1') c1 r2 (Datatypes.S c2') 0 0) as [[[y1 y2] res] E]; try assumption; try lia.
    rewrite E. eauto.
  - intros m1 m2 r1 c1 r2 H1 H2 Hr1 Hr2.
    assert (Er1 : rows m1 = r1) by apply (proj1 H1).
    rewrite <- Er1. apply multiply_no_cols.
    + lia.
    + unfold rows. rewrite (proj1 H2). lia.
    + destruct m2 as [d2 k2]. exact (rect_cols d2 r2 0 k2 H2 Hr2).
Qed.

(** ** What [multiply] does to its operands *)

Lemma sbind_post {S A B} (Q : S -> Prop) (c : ST S A) (f : A -> ST S B) :
  (forall s, Q (fst (c s))) -> (forall a s, Q s -> Q (fst (f a s))) ->
  forall s, Q (fst (sbind c f s)).
Proof.
  intros Hc Hf s. unfold sbind. specialize (Hc s).
  destruct (c s) as [s' [a| e |]]; cbn [fst] in *; auto.
Qed.

Lemma at_mut_data i (m : matrix T) : _data (fst (at_mut i m)) = _data m.
Proof. reflexivity. Qed.

Lemma seq_nonempty n : n <> 0 -> seq 0 n <> [].
Proof. destruct n; [congruence | discriminate]. Qed.

(** Every iteration leaves [m1] with an empty cache: [m1[i]] is its first
    step. *)
Lemma mul_body_m1 i j (s : @mstate T) : _cache (fst (fst (fst (mul_body i j s)))) = None.
Proof.
  set (Q := fun s : @mstate T => @_cache T (fst (fst s)) = None).
  change (Q (fst (mul_body i j s))). revert s. unfold mul_body.
  apply (sbind_post Q); [intros [[x1 x2] r]; unfold Q, on_m1, at_mut; reflexivity|].
  intros r1. apply (sbind_pres Q); [intros [[x1 x2] r]; unfold Q, on_m1, deref; cbn; auto|].
  intros row1. apply (sbind_pres Q); [intros [[x1 x2] r]; unfold Q, on_m2;
    destruct (transpose x2); cbn; auto|].
  intros t. apply (sbind_pres Q); [intros s; unfold slift; cbn; auto|].
  intros rowt. apply (sbind_pres Q); [intros s; unfold slift; cbn; auto|].
  intros v [[x1 x2] r]. unfold Q, on_res. destruct (assign i j v r). cbn. auto.
Qed.

(** An iteration on a valid [m2] leaves its transpose in [m2]'s cache. *)
Lemma mul_body_m2 (x1 x2 res : matrix T) r2 c2 i j :
  i < rows x1 -> rect (_data x2) r2 c2 -> 0 < r2 -> fresh x2 ->
  snd (fst (fst (mul_body i j (x1, x2, res))))
  = Mk (_data x2) (Some (Mk (tr_tab (_data x2) r2 c2) None)).
Proof.
  intros Hi H2 Hr2 Hf2.
  unfold mul_body, sbind, on_m1, on_m2, slift.
  rewrite (at_mut_in x1 i Hi). cbv beta iota. unfold deref. cbn [_data].
  rewrite (vidx_nth _ i []) by exact Hi. cbv beta iota.
  rewrite (transpose_rect x2 r2 c2 H2 Hr2 Hf2). cbv beta iota.
  destruct (k <- _ ;; _); cbv beta iota; [|reflexivity|reflexivity].
  destruct (dot _ _); cbv beta iota; [|reflexivity|reflexivity].
  unfold on_res. destruct (assign i j _ res). reflexivity.
Qed.

(** C9 (as amended).  [multiply(m1, m2)] on two distinct objects keeps the data of
    both; as soon as the loop body runs once ([m1] and [m2] with rows and
    [m2] with columns) it leaves [m1] with an empty cache and a valid
    [m2] with its transpose cached; when [m2] has no columns both
    operands are left as they were. *)
Theorem multiply_frame :
  (forall m1 m2 : matrix T,
     _data (fst (fst (multiply m1 m2))) = _data m1 /\
     _data (snd (fst (multiply m1 m2))) = _data m2) /\
  (forall m1 m2 : matrix T, rows m1 <> 0 -> rows m2 <> 0 -> cols m2 <> 0 ->
     _cache (fst (fst (multiply m1 m2))) = None) /\
  (forall (m1 m2 : matrix T) r2 c2,
     rows m1 <> 0 -> rect (_data m2) r2 c2 -> 0 < r2 -> 0 < c2 -> fresh m2 ->
     snd (fst (multiply m1 m2)) = Mk (_data m2) (Some (Mk (tr_tab (_data m2) r2 c2) None))) /\
  (forall m1 m2 : matrix T, cols m2 = 0 -> fst (multiply m1 m2) = (m1, m2)).
Proof.
  split; [|split; [|split]].
  - intros m1 m2.
    apply (multiply_pres (fun x => _data x = _data m1) (fun x => _data x = _data m2));
      [intros i m Hm; exact Hm | intros m Hm; rewrite transpose_data; exact Hm
      | reflexivity | reflexivity].
  - intros m1 m2 E1 E2 Ec. unfold multiply.
    apply Nat.eqb_neq in E1 as E1', E2 as E2'. rewrite E1', E2'. cbn [orb].
    lazymatch goal with |- context [sfor ?l ?B ?s0] =>
      pose proof (sfor_post (fun _ => True) (fun s : @mstate T => @_cache T (fst (fst s)) = None)
                    B l s0) as Hp;
      destruct (sfor l B s0) as [[[y1 y2] res] o] end.
    cbn [fst snd] in *. apply Hp; [apply seq_nonempty; exact E1| |exact I].
    intros k s _ _. split; [exact I|].
    apply (sfor_post (fun _ => True)); [apply seq_nonempty; exact Ec| |exact I].
    intros j s' _ _. split; [exact I | apply mul_body_m1].
  - intros m1 m2 r2 c2 E1 H2 Hr2 Hc2 Hf2.
    assert (E2 : rows m2 <> 0) by (unfold rows; rewrite (proj1 H2); lia).
    assert (Ec : cols m2 = c2) by (destruct m2 as [d2 k2]; exact (rect_cols d2 r2 c2 k2 H2 Hr2)).
    unfold multiply.
    apply Nat.eqb_neq in E1 as E1', E2 as E2'. rewrite E1', E2'. cbn [orb].
    set (P := fun s : @mstate T => _data (fst (fst s)) = _data m1 /\
                                _data (snd (fst s)) = _data m2 /\ fresh (snd (fst s))).
    set (Q := fun s : @mstate T =>
                snd (fst s) = Mk (_data m2) (Some (Mk (tr_tab (_data m2) r2 c2) None))).
    assert (HB : forall i j s, i < rows m1 -> P s -> P (fst (mul_body i j s)) /\ Q (fst (mul_body i j s))).
    { intros i j [[x1 x2] res] Hi [Ex1 [Ex2 Fx2]]. cbn [fst snd] in Ex1, Ex2, Fx2. split.
      - destruct (mul_body_pres (fun x => _data x = _data m1)
                    (fun x => _data x = _data m2 /\ fresh x) i j) with (s := (x1, x2, res))
          as [G1 [G2 G3]].
        + intros m Hm. exact Hm.
        + intros m [Hm Fm]. split; [rewrite transpose_data; exact Hm | apply transpose_fresh; exact Fm].
        + cbn [fst snd]. auto.
        + unfold P. auto.
      - unfold Q. rewrite <- Ex2.
        apply mul_body_m2; [unfold rows; rewrite Ex1; exact Hi | rewrite Ex2; exact H2 | exact Hr2 | exact Fx2]. }
    lazymatch goal with |- context [sfor ?l ?B ?s0] =>
      pose proof (sfor_post P Q B l s0) as Hp;
      destruct (sfor l B s0) as [[[y1 y2] res] o] end.
    cbn [fst snd] in *. apply Hp; [apply seq_nonempty; exact E1| |unfold P; cbn; auto].
    intros k s Hk Hs. apply in_seq in Hk.
    split.
    + apply (sfor_preserve P); [|exact Hs]. intros j s' _ Hs'. apply HB; [lia | exact Hs'].
    + apply (sfor_post P); [apply seq_nonempty; lia| |exact Hs].
      intros j s' _ Hs'. apply HB; [lia | exact Hs'].
  - intros m1 m2 Ec.
    destruct (Nat.eq_dec (rows m1) 0) as [E1|E1].
    + unfold multiply. rewrite E1. reflexivity.
    + destruct (Nat.eq_dec (rows m2) 0) as [E2|E2].
      * unfold multiply. rewrite E2, Bool.orb_true_r. reflexivity.
      * rewrite multiply_no_cols by assumption. reflexivity.
Qed.

(** ** The cache invariant *)

Lemma write_ref_cache i j v (m : matrix T) : _cache (fst (write_ref i j v m)) = _cache m.
Proof.
  unfold write_ref. destruct (r <- vidx (_data m) i ;; _); reflexivity.
Qed.

Lemma assign_cache i j v (m : matrix T) : _cache (fst (assign i j v m)) = None.
Proof.
  unfold assign. revert m.
  apply (sbind_post (fun m => _cache m = None)); [intros m; reflexivity|].
  intros r m Hm. rewrite write_ref_cache. exact Hm.
Qed.

Lemma fresh_no_cache (m : matrix T) : _cache m = None -> fresh m.
Proof. intros Hc. unfold fresh. rewrite Hc. exact I. Qed.

Lemma step_fresh (o : op T) (m : matrix T) :
  (forall i j v, o <> OpWriteRef i j v) -> fresh m -> fresh (fst (step o m)).
Proof.
  intros Ho Hm. destruct o as [| i | i | i j v | i j v | other | other | other |];
    cbn [step].
  - revert m Hm. apply (sbind_pres fresh); [apply transpose_fresh | intros; exact H0].
  - exact Hm.
  - revert m Hm. apply (sbind_pres fresh); [|intros; exact H0].
    intros m _. apply fresh_no_cache. reflexivity.
  - exfalso. exact (Ho i j v eq_refl).
  - apply fresh_no_cache, assign_cache.
  - pose proof (multiply_pres fresh (fun _ => True) m other) as Hp.
    destruct (multiply m other) as [[m' x] r]. cbn [fst].
    apply Hp; [intros i x' _; apply fresh_no_cache; reflexivity | auto | exact Hm | exact I].
  - pose proof (multiply_pres (fun _ => True) fresh other m) as Hp.
    destruct (multiply other m) as [[x m'] r]. cbn [fst].
    apply Hp; [auto | apply transpose_fresh | exact I | exact Hm].
  - exact Hm.
  - exact Hm.
Qed.

Lemma run_fresh (l : list (op T)) :
  Forall (fun o => forall i j v, o <> OpWriteRef i j v) l ->
  forall m : matrix T, fresh m -> fresh (fst (run l m)).
Proof.
  induction l as [|o l IH]; intros Hl m Hm; [exact Hm|].
  inversion Hl as [|o' l' Ho Hl']; subst. cbn [run]. revert m Hm.
  apply (sbind_pres fresh); [intros m; apply step_fresh; exact Ho|].
  intros _. apply IH. exact Hl'.
Qed.

(** C2 (as amended).  A fresh cache of a rectangular matrix is its transpose;
    every operation except a write through a row reference taken earlier
    keeps the cache fresh; the mutable row access clears the cache; a
    write through a reference keeps the cache as it is, hence keeps it
    fresh when the cache is empty; and [transpose()], then [m[i][j] = v],
    then [transpose()] returns the transpose of the updated data. *)
Theorem cache_freshness :
  (forall (m t : matrix T) r c,
     rect (_data m) r c -> fresh m -> _cache m = Some t -> t = Mk (tr_tab (_data m) r c) None) /\
  (forall (l : list (op T)) (m : matrix T),
     Forall (fun o => forall i j v, o <> OpWriteRef i j v) l ->
     fresh m -> fresh (fst (run l m))) /\
  (forall i (m : matrix T), _cache (fst (at_mut i m)) = None) /\
  (forall i j v (m : matrix T), _cache (fst (write_ref i j v m)) = _cache m) /\
  (forall (m : matrix T) r c i j v,
     rect (_data m) r c -> 0 < r -> i < r -> j < c -> fresh m ->
     exists m2 t, run [OpTranspose; OpAssign i j v] m = (m2, Ok tt) /\
       transpose m2 = (Mk (_data m2) (Some t), Ok t) /\
       t = Mk (tr_tab (_data m2) r c) None /\ elem t j i = Some v).
Proof.
  split; [|split; [|split; [|split]]].
  - intros m t r c Hrect Hf Hc. unfold fresh in Hf. rewrite Hc in Hf.
    destruct Hf as [Hne Ht]. destruct r as [|r'].
    + destruct Hrect as [Hl _]. destruct (_data m); [contradiction | discriminate].
    + rewrite (compute_transpose_rect (_data m) (Datatypes.S r') c Hrect) in Ht by lia.
      injection Ht as <-. reflexivity.
  - intros l m Hl Hm. exact (run_fresh l Hl m Hm).
  - intros i m. reflexivity.
  - exact write_ref_cache.
  - intros m r c i j v Hrect Hr Hi Hj Hf.
    set (f := fun i j => nth j (nth i (_data m) []) zero).
    assert (Ed : _data m = tab r c f) by exact (rect_tab_eq _ r c Hrect).
    pose proof (assign_tab r c f (Some (Mk (tr_tab (_data m) r c) None)) i j v Hi Hj) as HA.
    rewrite <- Ed in HA.
    set (m2 := Mk (tab r c (upd f i j v)) (@None (matrix T))) in HA.
    assert (HT : transpose m2 = (Mk (_data m2) (Some (Mk (tr_tab (_data m2) r c) None)),
                                 Ok (Mk (tr_tab (_data m2) r c) None))).
    { apply transpose_rect; [apply rect_tab | exact Hr | exact I]. }
    exists m2, (Mk (tr_tab (_data m2) r c) None). split; [|split; [|split]].
    + cbn [run step]. unfold sbind, sret.
      rewrite (transpose_rect m r c Hrect Hr Hf). cbv beta iota.
      rewrite HA. reflexivity.
    + exact HT.
    + reflexivity.
    + unfold tr_tab. rewrite elem_tab by assumption. f_equal.
      cbn [_data]. unfold m2. cbn [_data]. rewrite nth_nth_tab by assumption.
      unfold upd. now rewrite !Nat.eqb_refl.
Qed.

(** ** Row access *)

(** C4.  Out of range, the const [operator[]] throws [std::out_of_range]
    while the non-const [operator[]] reads [_data[i]] unchecked: undefined
    behaviour, after clearing the cache, with no exception. *)
Theorem row_access_out_of_range (m : matrix T) i :
  rows m <= i ->
  at_ m i = Throw IndexOutOfRange /\ snd (at_mut i m) = Undefined /\
  _cache (fst (at_mut i m)) = None.
Proof.
  intros Hi. unfold at_, at_mut, vat, vidx, rows in *.
  rewrite (proj2 (nth_error_None (_data m) i) Hi). auto.
Qed.

(** ** [print] *)

Lemma str_app_assoc (a b c : string) : (a ++ b ++ c = (a ++ b) ++ c)%string.
Proof. induction a as [|x a IH]; cbn; [reflexivity | now rewrite IH]. Qed.

Lemma print_row (row : list T) :
  row <> [] ->
  String.concat "" (map (fun item => show item ++ " ") row)%string
  = (String.concat " " (map show row) ++ " ")%string.
Proof.
  intros Hne. induction row as [|x row IH]; [contradiction|].
  destruct row as [|y row]; [reflexivity|].
  cbn [map]. cbn [map] in IH.
  change (String.concat "" ((show x ++ " ") :: (show y ++ " ") :: map (fun item => show item ++ " ") row))%string
    with ((show x ++ " ") ++ String.concat "" ((show y ++ " ") :: map (fun item => show item ++ " ") row))%string.
  rewrite IH by discriminate.
  change (String.concat " " (show x :: show y :: map show row))
    with (show x ++ " " ++ String.concat " " (show y :: map show row))%string.
  rewrite !str_app_assoc. reflexivity.
Qed.

(** C10 (as amended).  [print] writes each row in order: an empty row as a bare line
    terminator, a non-empty row as its elements separated by single
    spaces, then one more space, then the line terminator; an empty
    matrix prints nothing. *)
Theorem print_format (m : matrix T) :
  print m = String.concat "" (map (fun row =>
    match row with
    | [] => endl
    | _ :: _ => (String.concat " " (map show row) ++ " " ++ endl)%string
    end) (_data m)) /\
  (_data m = [] -> print m = ""%string).
Proof.
  split; [|intros Hd; unfold print; rewrite Hd; reflexivity].
  unfold print. f_equal. apply map_ext. intros row.
  destruct row as [|x row]; [reflexivity|].
  rewrite print_row by discriminate. rewrite str_app_assoc. reflexivity.
Qed.

End Proofs.

(** * Further properties of the library *)

Section Extras.
Context {T : Type} `{Elem T}.

(** ** [matrix(rows, cols, value)] *)

(** The filled constructor builds a [rows x cols] matrix of [value] with
    no cache; with no rows, [cols()] is [0] whatever [cols] was asked. *)
Theorem filled_shape r c (v : T) :
  rect (_data (filled r c v)) r c /\ rows (filled r c v) = r /\
  cols (filled r c v) = (if r =? 0 then 0 else c) /\ _cache (filled r c v) = None /\
  (forall i j, i < r -> j < c -> elem (filled r c v) i j = Some v).
Proof.
  rewrite filled_tab. split; [apply rect_tab|]. split; [apply length_tab|].
  split; [|split; [reflexivity|]].
  - destruct r as [|r']; [reflexivity|].
    apply (rect_cols _ (Datatypes.S r') c None (rect_tab _ _ _)). lia.
  - intros i j Hi Hj. apply elem_tab; assumption.
Qed.

(** ** Repeated [transpose()] *)

(** A second [transpose()] returns what the first returned and leaves the
    object as the first left it, whatever the object. *)
Theorem transpose_twice (m : matrix T) :
  transpose (fst (transpose m)) = (fst (transpose m), snd (transpose m)).
Proof.
  destruct m as [d [c|]]; [reflexivity|].
  destruct d as [|r0 d]; [reflexivity|].
  unfold transpose. cbn [_cache _data].
  destruct (compute_transpose (r0 :: d)) eqn:E; cbn; rewrite ?E; reflexivity.
Qed.

(** ** Element assignment [m[i][j] = v] *)

Lemma elem_tab_out r c (f : nat -> nat -> T) ca i j :
  r <= i \/ c <= j -> elem (Mk (tab r c f) ca) i j = None.
Proof.
  intros Hij. unfold elem. cbn [_data].
  destruct (Nat.lt_ge_cases i r) as [Hi|Hi].
  - rewrite nth_error_tab by exact Hi. rewrite nth_error_map, nth_error_seq.
    destruct (Nat.ltb_spec j c); [lia | reflexivity].
  - rewrite (proj2 (nth_error_None _ _)); [reflexivity | rewrite length_tab; exact Hi].
Qed.

(** In range, [m[i][j] = v] changes entry [(i, j)] and nothing else of the
    data, and empties the cache. *)
Theorem assign_in_range (m : matrix T) r c i j v :
  rect (_data m) r c -> i < r -> j < c ->
  snd (assign i j v m) = Ok tt /\ rect (_data (fst (assign i j v m))) r c /\
  _cache (fst (assign i j v m)) = None /\
  forall i' j', elem (fst (assign i j v m)) i' j' =
    if (i' =? i) && (j' =? j) then Some v else elem m i' j'.
Proof.
  intros Hrect Hi Hj. destruct m as [d ca]. cbn [_data] in *.
  set (f := fun i j => nth j (nth i d []) zero).
  assert (Ed : d = tab r c f) by exact (rect_tab_eq d r c Hrect).
  clearbody f. subst d.
  rewrite assign_tab by assumption. cbn [fst snd _data _cache].
  split; [reflexivity|]. split; [apply rect_tab|]. split; [reflexivity|].
  intros i' j'.
  destruct (Nat.lt_ge_cases i' r) as [Hi'|Hi']; [destruct (Nat.lt_ge_cases j' c) as [Hj'|Hj']|].
  - rewrite !elem_tab by assumption. unfold upd.
    destruct ((i' =? i) && (j' =? j)); reflexivity.
  - rewrite !elem_tab_out by lia.
    destruct (Nat.eqb_spec j' j); [lia|]. now rewrite Bool.andb_false_r.
  - rewrite !elem_tab_out by lia.
    destruct (Nat.eqb_spec i' i); [lia|]. reflexivity.
Qed.

Lemma vset_out {A} (l : list A) j x : List.length l <= j -> vset l j x = Undefined.
Proof.
  revert j. induction l as [|y l IH]; intros j Hj; [reflexivity|].
  destruct j as [|j]; [cbn in Hj; lia|]. cbn [vset]. rewrite IH by (cbn in Hj; lia).
  reflexivity.
Qed.

(** Out of range (a row index past the last row, or a column index past
    the end of that row), [m[i][j] = v] is an unchecked write: undefined
    behaviour, with the cache already emptied and the data untouched. *)
Theorem assign_out_of_range (m : matrix T) i j v :
  List.length (nth i (_data m) []) <= j ->
  assign i j v m = (Mk (_data m) None, Undefined).
Proof.
  intros Hj. unfold assign, sbind, at_mut, vidx.
  destruct (nth_error (_data m) i) as [row|] eqn:E; [|reflexivity].
  cbn [obind]. unfold write_ref, vidx. cbn [_data _cache]. rewrite E. cbn [obind].
  rewrite (nth_error_nth _ _ [] E) in Hj. rewrite vset_out by exact Hj. reflexivity.
Qed.

(** ** [dot] *)

(** With a commutative [operator*], swapping the arguments of [dot]
    gives the same value, or the same error with the two lengths swapped. *)
Theorem dot_swap (v1 v2 : list T) :
  (forall x y, mul x y = mul y x) ->
  dot v2 v1 = match dot v1 v2 with
              | Throw (DimensionMismatch s1 s2) => Throw (DimensionMismatch s2 s1)
              | o => o
              end.
Proof.
  intros Hc. destruct (Nat.eq_dec (List.length v1) (List.length v2)) as [E|E].
  - rewrite (dot_ok v1 v2 E), (dot_ok v2 v1 (eq_sym E)), E. f_equal.
    apply sum_lr_ext. intros k _. apply Hc.
  - rewrite (dot_mismatch v1 v2 E), (dot_mismatch v2 v1 (not_eq_sym E)). reflexivity.
Qed.

Lemma sum_lr_app n p (g : nat -> T) :
  (forall x y z, add x (add y z) = add (add x y) z) -> (forall x, add x zero = x) ->
  sum_lr (n + p) g = add (sum_lr n g) (sum_lr p (fun k => g (n + k))).
Proof.
  intros Ha Hz. induction p as [|p IH].
  - rewrite Nat.add_0_r. unfold sum_lr at 3. cbn. now rewrite Hz.
  - rewrite Nat.add_succ_r, !sum_lr_S, IH. symmetry. apply Ha.
Qed.

(** With an associative [operator+] for which [T()] is a right identity,
    [dot] of two concatenations of equal-length parts is the sum of the
    [dot]s of the parts. *)
Theorem dot_app (a b c d : list T) :
  (forall x y z, add x (add y z) = add (add x y) z) -> (forall x, add x zero = x) ->
  List.length a = List.length c -> List.length b = List.length d ->
  dot (a ++ b) (c ++ d) = (x <- dot a c ;; y <- dot b d ;; Ok (add x y)).
Proof.
  intros Ha Hz Eac Ebd.
  rewrite (dot_ok a c Eac), (dot_ok b d Ebd). cbn [obind].
  rewrite dot_ok by (rewrite !length_app; lia).
  rewrite length_app, (sum_lr_app _ _ _ Ha Hz). f_equal. f_equal.
  - apply sum_lr_ext. intros k Hk. rewrite !app_nth1 by lia. reflexivity.
  - apply sum_lr_ext. intros k Hk.
    rewrite !app_nth2 by lia. rewrite <- Eac.
    now replace (List.length a + k - List.length a) with k by lia.
Qed.

(** ** [operator==] *)

(** With a reflexive [operator==] on [T], every rectangular matrix is
    equal to itself. *)
Theorem eq_refl_rect (a : matrix T) r c :
  (forall x, teqb x x = true) -> rect (_data a) r c -> eq a a = Ok true.
Proof.
  intros Hr Ha. unfold eq. rewrite (neq_same_shape a a r c r c Ha Ha eq_refl eq_refl).
  cbn [obind]. f_equal. apply Bool.negb_true_iff.
  apply existsb_seq_false. intros i _. apply existsb_seq_false. intros j _.
  now rewrite Hr.
Qed.

Lemma existsb_ext' {A} (f g : A -> bool) l : (forall x, f x = g x) -> existsb f l = existsb g l.
Proof. intros Hfg. induction l as [|x l IH]; cbn; [reflexivity | now rewrite Hfg, IH]. Qed.

(** With a symmetric [operator==] on [T], [==] on rectangular matrices is
    symmetric. *)
Theorem eq_sym_rect (a b : matrix T) ra ca rb cb :
  (forall x y, teqb x y = teqb y x) -> rect (_data a) ra ca -> rect (_data b) rb cb ->
  eq a b = eq b a.
Proof.
  intros Hs Ha Hb. unfold eq.
  destruct (Nat.eq_dec (rows a) (rows b)) as [Er|Er];
    [destruct (Nat.eq_dec (cols a) (cols b)) as [Ec|Ec]|].
  - rewrite (neq_same_shape a b ra ca rb cb Ha Hb Er Ec),
            (neq_same_shape b a rb cb ra ca Hb Ha (eq_sym Er) (eq_sym Ec)).
    cbn [obind]. rewrite <- Er, <- Ec. do 2 f_equal.
    apply existsb_ext'. intros i. apply existsb_ext'. intros j. now rewrite Hs.
  - rewrite !neq_other_shape by (right; congruence). reflexivity.
  - rewrite !neq_other_shape by (left; congruence). reflexivity.
Qed.

(** ** [print] *)

Lemma str_app_nil_r (s : string) : (s ++ "")%string = s.
Proof. induction s as [|a s IH]; cbn; [reflexivity | now rewrite IH]. Qed.

Lemma concat_empty_app (l1 l2 : list string) :
  String.concat "" (l1 ++ l2) = (String.concat "" l1 ++ String.concat "" l2)%string.
Proof.
  induction l1 as [|s l1 IH]; [reflexivity|].
  cbn [app]. destruct l1 as [|s' l1].
  - destruct l2; cbn [app String.concat]; [now rewrite str_app_nil_r | reflexivity].
  - change (String.concat "" (s :: (s' :: l1) ++ l2))
      with (s ++ "" ++ String.concat "" ((s' :: l1) ++ l2))%string.
    rewrite IH. cbn [String.concat append]. now rewrite str_app_assoc.
Qed.

(** Printing the rows [d1 ++ d2] prints the rows [d1], then the rows [d2]. *)
Theorem print_app (d1 d2 : list (list T)) ca :
  print (Mk (d1 ++ d2) ca) = (print (Mk d1 ca) ++ print (Mk d2 ca))%string.
Proof. unfold print. cbn [_data]. rewrite map_app. apply concat_empty_app. Qed.

Lemma count_char_app a (s1 s2 : string) :
  count_char a (s1 ++ s2) = count_char a s1 + count_char a s2.
Proof. induction s1 as [|b s1 IH]; cbn; [reflexivity | rewrite IH; lia]. Qed.

Lemma count_char_concat a (l : list string) :
  count_char a (String.concat "" l) = fold_right (fun s n => count_char a s + n) 0 l.
Proof.
  induction l as [|s l IH]; [reflexivity|].
  destruct l as [|s' l]; [cbn; lia|].
  change (String.concat "" (s :: s' :: l)) with (s ++ "" ++ String.concat "" (s' :: l))%string.
  rewrite count_char_app. cbn [append]. rewrite IH. reflexivity.
Qed.

(** When no element prints a line break, [print] writes exactly one line
    break per row. *)
Theorem print_lines (m : matrix T) :
  Forall (fun row => Forall (fun x => count_char newline (show x) = 0) row) (_data m) ->
  count_char newline (print m) = rows m.
Proof.
  intros Hs. unfold print, rows. rewrite count_char_concat.
  induction (_data m) as [|row d IH]; [reflexivity|].
  inversion Hs as [|r' d' Hrow Hd]; subst. cbn [map fold_right List.length].
  rewrite (IH Hd), count_char_app, count_char_concat.
  assert (E : fold_right (fun s n => count_char newline s + n) 0
                (map (fun item => show item ++ " ") row)%string = 0).
  { clear IH Hs Hd. induction row as [|x row IHr]; [reflexivity|].
    inversion Hrow as [|x' r'' Hx Hr]; subst. cbn [map fold_right].
    rewrite count_char_app, Hx, (IHr Hr). reflexivity. }
  rewrite E. reflexivity.
Qed.

(** ** [invalid_dimension] *)

Lemma no_space_uint d : no_space (NilEmpty.string_of_uint d) = true.
Proof. induction d; cbn; auto. Qed.

Lemma no_space_to_string n : no_space (to_string n) = true.
Proof. unfold to_string, NilZero.string_of_uint. destruct (Nat.to_uint n); try reflexivity; apply no_space_uint. Qed.

Lemma split_at_space (a a' b b' : string) :
  no_space a = true -> no_space a' = true ->
  (a ++ String " " b = a' ++ String " " b')%string -> a = a' /\ b = b'.
Proof.
  revert a'. induction a as [|x a IH]; intros [|x' a'] Ha Ha' E; cbn in *.
  - injection E as ->. split; reflexivity.
  - injection E as <- _. discriminate Ha'.
  - injection E as -> _. discriminate Ha.
  - apply andb_prop in Ha as [_ Ha]. apply andb_prop in Ha' as [_ Ha'].
    injection E as <- E. destruct (IH a' Ha Ha' E) as [-> ->]. split; reflexivity.
Qed.

Lemma to_uint_not_nil n : Nat.to_uint n <> Decimal.Nil.
Proof.
  intros E. pose proof (DecimalNat.Unsigned.of_to n) as Hn. rewrite E in Hn.
  cbn in Hn. subst n. discriminate E.
Qed.

Lemma to_string_inj n n' : to_string n = to_string n' -> n = n'.
Proof.
  intros E. apply DecimalNat.Unsigned.to_uint_inj.
  assert (Hu : forall k, NilZero.uint_of_string (to_string k) = Some (Nat.to_uint k))
    by (intros k; apply NilZero.usu, to_uint_not_nil).
  pose proof (Hu n) as H1. rewrite E, Hu in H1. injection H1 as ->. reflexivity.
Qed.

Lemma str_app_inv_l (p s1 s2 : string) : (p ++ s1 = p ++ s2)%string -> s1 = s2.
Proof. induction p as [|a p IH]; cbn; [auto | intros E; injection E; auto]. Qed.

(** The message of [invalid_dimension(s1, s2)] determines both sizes. *)
Theorem invalid_dimension_what_inj s1 s2 s1' s2' :
  invalid_dimension_what s1 s2 = invalid_dimension_what s1' s2' -> s1 = s1' /\ s2 = s2'.
Proof.
  unfold invalid_dimension_what. intros E. apply str_app_inv_l in E.
  apply split_at_space in E as [E1 E2]; try apply no_space_to_string.
  apply to_string_inj in E1. injection E2 as E2. apply to_string_inj in E2. auto.
Qed.

(** ** [transpose()] on ragged row stores *)

Lemma wide_row (d : list (list T)) c j :
  Forall (fun row => c <= List.length row) d -> j < List.length d ->
  c <= List.length (nth j d []).
Proof. intros Hf Hj. rewrite Forall_forall in Hf. apply Hf, nth_In, Hj. Qed.

Lemma compute_transpose_wide d r c :
  List.length d = r -> 0 < r -> cols (Mk d None) = c ->
  Forall (fun row => c <= List.length row) d ->
  compute_transpose d = Ok (Mk (tr_tab d r c) None).
Proof.
  intros Hl Hr Hc Hw.
  unfold compute_transpose. rewrite Hc.
  unfold rows. cbn [_data]. rewrite Hl, filled_tab.
  set (D := fun i j => nth i (nth j d []) zero).
  lazymatch goal with |- context [sfor (seq 0 c) ?B] =>
  destruct (sfor_seq
    (fun i m => exists f, m = Mk (tab c r f) None /\
       forall i' j', i' < c -> j' < r -> f i' j' = if i' <? i then D i' j' else zero)
    B c 0 (Mk (tab c r (fun _ _ => zero)) None)) as [m [E [f [Em Hfm]]]] end.
  - intros i m Hi [f [Em Hfm]]. subst m. cbv beta.
    lazymatch goal with |- context [sfor (seq 0 r) ?B] =>
    destruct (sfor_seq
      (fun j m => exists g, m = Mk (tab c r g) None /\
         forall i' j', i' < c -> j' < r ->
         g i' j' = if (i' <? i) || ((i' =? i) && (j' <? j)) then D i' j' else zero)
      B r 0 (Mk (tab c r f) None)) as [m [E [g [Em Hg]]]] end.
    + intros j m Hj [g [Em Hg]]. subst m. cbv beta.
      exists (Mk (tab c r (upd g i j (D i j))) None). split.
      * unfold sbind, slift.
        rewrite (vidx_nth d j []) by lia. cbn [obind].
        rewrite (vidx_nth (nth j d []) i zero)
          by (pose proof (wide_row d c j Hw ltac:(lia)); lia).
        apply assign_tab; lia.
      * exists (upd g i j (D i j)). split; [reflexivity|].
        intros i' j' Hi' Hj'. unfold upd. rewrite Hg by assumption.
        destruct (Nat.eqb_spec i' i), (Nat.eqb_spec j' j), (Nat.ltb_spec i' i),
          (Nat.ltb_spec j' j), (Nat.ltb_spec j' (Datatypes.S j)); subst;
          cbn [andb orb]; try reflexivity; lia.
    + exists f. split; [reflexivity|]. intros i' j' Hi' Hj'.
      rewrite Hfm by assumption.
      destruct (Nat.ltb_spec i' i), (Nat.eqb_spec i' i), (Nat.ltb_spec j' 0);
        cbn [andb orb]; try reflexivity; lia.
    + exists m. split; [exact E|]. exists g. split; [exact Em|].
      intros i' j' Hi' Hj'. cbn [Nat.add] in Hg. rewrite Hg by assumption.
      destruct (Nat.ltb_spec i' i), (Nat.eqb_spec i' i), (Nat.ltb_spec i' (Datatypes.S i)),
        (Nat.ltb_spec j' r); cbn [andb orb]; try reflexivity; lia.
  - exists (fun _ _ => zero). split; [reflexivity|].
    intros i' j' _ _. destruct (Nat.ltb_spec i' 0); [lia | reflexivity].
  - cbn [Nat.add] in E. rewrite E. subst m. unfold tr_tab. do 2 f_equal.
    apply tab_ext. intros i j Hi Hj. rewrite Hfm by assumption.
    cbn [Nat.add]. destruct (Nat.ltb_spec i c); [reflexivity | lia].
Qed.

(** When every row is at least as long as the first, [transpose()] of an
    object with no cache succeeds; it transposes the first [cols()]
    entries of each row (longer rows are cut) and caches the result. *)
Theorem transpose_wide (m : matrix T) :
  _cache m = None -> 0 < rows m ->
  Forall (fun row => cols m <= List.length row) (_data m) ->
  exists t, transpose m = (Mk (_data m) (Some t), Ok t) /\ _cache t = None /\
    rect (_data t) (cols m) (rows m) /\
    forall i j, i < cols m -> j < rows m -> elem t i j = elem m j i.
Proof.
  intros Hc Hr Hw. destruct m as [d ca]. cbn [_cache _data] in *. subst ca.
  unfold rows, cols in *. cbn [_data] in *.
  exists (Mk (tr_tab d (List.length d) (match d with [] => 0 | r0 :: _ => List.length r0 end)) None).
  split; [|split; [reflexivity | split; [apply rect_tr_tab|]]].
  - unfold transpose. cbn [_cache _data].
    destruct d as [|r0 d']; [cbn in Hr; lia|].
    rewrite (compute_transpose_wide (r0 :: d') (List.length (r0 :: d')) (List.length r0));
      [reflexivity | reflexivity | exact Hr | reflexivity | exact Hw].
  - intros i j Hi Hj. unfold tr_tab. rewrite elem_tab by assumption.
    unfold elem. cbn [_data].
    rewrite (nth_error_nth' d [] (n := j)) by exact Hj.
    rewrite (nth_error_nth' (nth j d []) zero (n := i))
      by (pose proof (wide_row d _ j Hw Hj); lia).
    reflexivity.
Qed.

Lemma sfor_undef {S} (body : nat -> ST S unit) l k :
  In k l -> (forall k' s e, snd (body k' s) <> Throw e) ->
  (forall s, snd (body k s) = Undefined) ->
  forall s, snd (sfor l body s) = Undefined.
Proof.
  intros Hin Hnt Hk. induction l as [|x l IH]; [destruct Hin|].
  intros s. rewrite sfor_cons.
  destruct Hin as [->|Hin].
  - specialize (Hk s). destruct (body k s) as [s' o]. cbn [snd] in Hk. subst o. reflexivity.
  - specialize (Hnt x s). destruct (body x s) as [s' [u| e |]]; cbn [snd] in *.
    + apply IH; exact Hin.
    + exfalso. exact (Hnt e eq_refl).
    + reflexivity.
Qed.

(** When some row is shorter than the first, [transpose()] of an object
    with no cache reads past the end of that row: undefined behaviour,
    with the object unchanged. *)
Theorem transpose_short_row (m : matrix T) i j :
  _cache m = None -> i < cols m -> j < rows m -> List.length (nth j (_data m) []) <= i ->
  transpose m = (m, Undefined).
Proof.
  intros Hc Hi Hj Hs. unfold transpose. rewrite Hc.
  destruct (_data m) as [|r0 d'] eqn:Ed; [unfold rows in Hj; rewrite Ed in Hj; cbn in Hj; lia|].
  assert (E : compute_transpose (r0 :: d') = Undefined).
  { unfold compute_transpose.
    assert (Hc' : cols (Mk (r0 :: d') None) = cols m) by (unfold cols; rewrite Ed; reflexivity).
    assert (Hr' : rows (Mk (r0 :: d') None) = rows m) by (unfold rows; rewrite Ed; reflexivity).
    rewrite Hc', Hr'.
    lazymatch goal with |- context [sfor ?l ?B ?s0] =>
      pose proof (sfor_undef B l i) as Hu end.
    assert (Hb : forall k' s e, snd (sfor (seq 0 (rows m)) (fun j =>
                    x <-- slift (r <- vidx (r0 :: d') j ;; vidx r k') ;; assign k' j x) s) <> Throw e).
    { intros k' s e. apply sfor_no_throw. intros j' s'. apply sbind_no_throw.
      - intros s''. unfold slift. cbn [snd].
        destruct (vidx (r0 :: d') j') eqn:Ev; cbn [obind];
          [apply vidx_no_throw | exfalso; exact (vidx_no_throw _ _ _ Ev) | discriminate].
      - intros x s''. apply assign_no_throw. }
    lazymatch goal with |- context [sfor ?l ?B ?s0] =>
      specialize (Hu ltac:(apply in_seq; lia) Hb);
      lazymatch type of Hu with ?P -> _ => assert (HP : P) end end.
    { intros s. apply (sfor_undef _ _ j); [apply in_seq; lia | |].
      - intros k' s' e. apply sbind_no_throw.
        + intros s''. unfold slift. cbn [snd].
          destruct (vidx (r0 :: d') k') eqn:Ev; cbn [obind];
            [apply vidx_no_throw | exfalso; exact (vidx_no_throw _ _ _ Ev) | discriminate].
        + intros x s''. apply assign_no_throw.
      - intros s'. unfold sbind, slift.
        rewrite (vidx_nth (r0 :: d') j []) by (unfold rows in Hj; rewrite ?Ed in Hj; exact Hj).
        cbn [obind]. unfold vidx. rewrite ?Ed in Hs.
        rewrite (proj2 (nth_error_None _ _) Hs). reflexivity. }
    lazymatch goal with |- context [sfor ?l ?B ?s0] =>
      specialize (Hu HP s0); destruct (sfor l B s0) as [mT o] end.
    cbn [snd] in Hu. subst o. reflexivity. }
  rewrite E. reflexivity.
Qed.

(** ** Products *)

Lemma multiply_tab (m1 m2 : matrix T) r1 c1 c2 :
  rect (_data m1) r1 c1 -> rect (_data m2) c1 c2 -> 0 < r1 -> 0 < c1 -> fresh m2 ->
  exists x1 x2, multiply m1 m2 = ((x1, x2), Ok (Mk (tab r1 c2 (prod_entry m1 m2)) None)).
Proof.
  intros H1 H2 Hr1 Hc1 Hf2.
  assert (Hrows1 : rows m1 = r1) by apply (proj1 H1).
  assert (Hcols2 : cols m2 = c2) by (destruct m2; apply (rect_cols _ c1 c2 _ H2 Hc1)).
  destruct (multiply_loop m1 m2 r1 c1 c2 H1 H2 Hr1 Hc1 Hf2) as [x1 [x2 [f [E Hf]]]].
  unfold multiply. rewrite (rows_pos m1 r1 c1 H1 Hr1), (rows_pos m2 c1 c2 H2 Hc1).
  cbn [orb]. rewrite Hrows1, Hcols2, filled_tab, E. cbn [obind].
  exists x1, x2. rewrite (tab_ext r1 c2 f (prod_entry m1 m2) Hf). reflexivity.
Qed.

Lemma entry_tr_tab (d : list (list T)) r c i j :
  i < c -> j < r -> entry (Mk (tr_tab d r c) None) i j = nth i (nth j d []) zero.
Proof. intros Hi Hj. unfold entry, tr_tab. cbn [_data]. exact (nth_nth_tab c r (fun i j => nth i (nth j d []) zero) i j Hi Hj). Qed.

(** With a commutative [operator*], the transpose of [m1 * m2] has the
    data of [m2.transpose() * m1.transpose()]. *)
Theorem multiply_transpose (m1 m2 : matrix T) r1 c1 c2 :
  (forall x y, mul x y = mul y x) ->
  rect (_data m1) r1 c1 -> rect (_data m2) c1 c2 -> 0 < r1 -> 0 < c1 -> 0 < c2 ->
  fresh m1 -> fresh m2 ->
  exists s1 p s2 pt s3 t1 s4 t2 s5 q,
    multiply m1 m2 = (s1, Ok p) /\ transpose p = (s2, Ok pt) /\
    transpose m1 = (s3, Ok t1) /\ transpose m2 = (s4, Ok t2) /\
    multiply t2 t1 = (s5, Ok q) /\ _data pt = _data q.
Proof.
  intros Hcomm H1 H2 Hr1 Hc1 Hc2 Hf1 Hf2.
  destruct (multiply_tab m1 m2 r1 c1 c2 H1 H2 Hr1 Hc1 Hf2) as [x1 [x2 E1]].
  set (P := prod_entry m1 m2) in E1.
  pose proof (transpose_rect (Mk (tab r1 c2 P) None) r1 c2 (rect_tab r1 c2 P) Hr1 I) as ET.
  pose proof (transpose_rect m1 r1 c1 H1 Hr1 Hf1) as ET1.
  pose proof (transpose_rect m2 c1 c2 H2 Hc1 Hf2) as ET2.
  destruct (multiply_tab (Mk (tr_tab (_data m2) c1 c2) None) (Mk (tr_tab (_data m1) r1 c1) None)
              c2 c1 r1 (rect_tr_tab _ _ _) (rect_tr_tab _ _ _) Hc2 Hc1 I) as [y1 [y2 E2]].
  do 10 eexists. split; [exact E1|]. split; [exact ET|]. split; [exact ET1|].
  split; [exact ET2|]. split; [exact E2|].
  cbn [_data]. unfold tr_tab at 1. apply tab_ext. intros j i Hj Hi.
  rewrite nth_nth_tab by assumption. unfold P, prod_entry.
  rewrite (rect_cols _ c2 c1 None (rect_tr_tab _ _ _) Hc2).
  destruct m1 as [d1 k1]. rewrite (rect_cols d1 r1 c1 k1 H1 Hr1).
  apply sum_lr_ext. intros k Hk.
  rewrite entry_tr_tab, entry_tr_tab by assumption. rewrite Hcomm. reflexivity.
Qed.


(** ** Comparison never throws *)

Lemma any_o_no_throw (l : list nat) f e :
  (forall x, In x l -> f x <> Throw e) -> any_o l f <> Throw e.
Proof.
  induction l as [|x l IH]; intros Hf; [discriminate|].
  cbn [any_o]. pose proof (Hf x (or_introl eq_refl)) as Hx.
  destruct (f x) as [b| e' |]; cbn [obind]; [|exact Hx|discriminate].
  destruct b; [discriminate|]. apply IH. intros y Hy. apply Hf. right. exact Hy.
Qed.

(** [operator==] and [operator!=] never throw: the checked [rhs[i]] is
    reached only for [i < rows()], and both objects then have that many
    rows. *)
Theorem eq_no_throw (a b : matrix T) e : eq a b <> Throw e /\ neq a b <> Throw e.
Proof.
  assert (Hn : neq a b <> Throw e).
  { unfold neq.
    destruct (Nat.eqb_spec (rows a) (rows b)) as [Er|Er]; cbn [negb orb]; [|discriminate].
    destruct (negb (cols a =? cols b)); [discriminate|].
    apply any_o_no_throw. intros i Hi. apply in_seq in Hi.
    apply any_o_no_throw. intros j _.
    destruct (r <- vidx (_data a) i ;; vidx r j) as [x| e1 |] eqn:Ex; cbn [obind].
    - unfold at_, vat. unfold rows in Er, Hi.
      rewrite (nth_error_nth' (_data b) [] (n := i)) by lia. cbn [obind].
      unfold vidx. destruct (nth_error (nth i (_data b) []) j); discriminate.
    - unfold vidx in Ex. destruct (nth_error (_data a) i); cbn [obind] in Ex;
        [destruct (nth_error l j)|]; discriminate.
    - discriminate. }
  split; [|exact Hn]. unfold eq.
  destruct (neq a b) as [r| e' |]; cbn [obind]; [discriminate | exact Hn | discriminate].
Qed.

(** ** Products with a column-less right operand *)

(** When [m2] has rows but its first row is empty, [multiply] checks no
    dimensions: it returns [m1.rows()] empty rows and leaves both operands
    as they were, caches included, whatever [m1.cols()] is. *)
Theorem multiply_no_columns (m1 m2 : matrix T) :
  rows m1 <> 0 -> rows m2 <> 0 -> cols m2 = 0 ->
  multiply m1 m2 = ((m1, m2), Ok (Mk (repeat [] (rows m1)) None)).
Proof.
  intros E1 E2 Ec. rewrite (multiply_no_cols m1 m2 E1 E2 Ec). reflexivity.
Qed.

(* END-EXTRAS *)
End Extras.

(** ** Products of integer matrices *)

Section IntProducts.

Local Open Scope Z_scope.

Lemma sumZ_S n (g : nat -> Z) : sum_lr (Datatypes.S n) g = sum_lr n g + g n.
Proof. exact (@sum_lr_S Z Elem_Z n g). Qed.

Lemma sumZ_add n (f g : nat -> Z) :
  sum_lr n (fun k => f k + g k) = sum_lr n f + sum_lr n g.
Proof.
  induction n as [|n IH]; [reflexivity|]. rewrite !sumZ_S, IH. ring.
Qed.

Lemma sumZ_mul_l n (g : nat -> Z) x : x * sum_lr n g = sum_lr n (fun k => x * g k).
Proof.
  induction n as [|n IH]; [cbn; ring|]. rewrite !sumZ_S, <- IH. ring.
Qed.

Lemma sumZ_mul_r n (g : nat -> Z) x : sum_lr n g * x = sum_lr n (fun k => g k * x).
Proof.
  induction n as [|n IH]; [reflexivity|]. rewrite !sumZ_S, <- IH. ring.
Qed.

Lemma sumZ_swap n p (f : nat -> nat -> Z) :
  sum_lr n (fun i => sum_lr p (fun j => f i j)) = sum_lr p (fun j => sum_lr n (fun i => f i j)).
Proof.
  induction n as [|n IH].
  - induction p as [|p IHp]; [reflexivity|]. rewrite sumZ_S, <- IHp. reflexivity.
  - rewrite sumZ_S, IH, <- sumZ_add. apply sum_lr_ext. intros j _. rewrite sumZ_S. reflexivity.
Qed.

Lemma entry_tab (r c : nat) (f : nat -> nat -> Z) ca i j :
  (i < r)%nat -> (j < c)%nat -> entry (Mk (tab r c f) ca) i j = f i j.
Proof. intros Hi Hj. unfold entry. cbn [_data]. apply nth_nth_tab; assumption. Qed.

(** Integer matrix products associate: for conformable [a], [b], [c] with
    non-zero dimensions, [(a * b) * c] and [a * (b * c)] both succeed
    with the same elements. *)
Theorem multiply_assoc (a b c : matrix Z) r1 c1 c2 c3 :
  rect (_data a) r1 c1 -> rect (_data b) c1 c2 -> rect (_data c) c2 c3 ->
  (0 < r1)%nat -> (0 < c1)%nat -> (0 < c2)%nat -> (0 < c3)%nat -> fresh b -> fresh c ->
  exists s1 ab s2 abc s3 bc s4 abc',
    multiply a b = (s1, Ok ab) /\ multiply ab c = (s2, Ok abc) /\
    multiply b c = (s3, Ok bc) /\ multiply a bc = (s4, Ok abc') /\
    _data abc = _data abc'.
Proof.
  intros Ha Hb Hc Hr1 Hc1 Hc2 Hc3 Hfb Hfc.
  destruct (multiply_tab a b r1 c1 c2 Ha Hb Hr1 Hc1 Hfb) as [x1 [x2 E1]].
  destruct (multiply_tab (Mk (tab r1 c2 (prod_entry a b)) None) c r1 c2 c3
              (rect_tab _ _ _) Hc Hr1 Hc2 Hfc) as [y1 [y2 E2]].
  destruct (multiply_tab b c c1 c2 c3 Hb Hc Hc1 Hc2 Hfc) as [z1 [z2 E3]].
  destruct (multiply_tab a (Mk (tab c1 c3 (prod_entry b c)) None) r1 c1 c3
              Ha (rect_tab _ _ _) Hr1 Hc1 I) as [w1 [w2 E4]].
  do 8 eexists. split; [exact E1|]. split; [exact E2|]. split; [exact E3|].
  split; [exact E4|]. cbn [_data]. apply tab_ext. intros i l Hi Hl.
  unfold prod_entry at 1 3.
  rewrite (rect_cols _ r1 c2 None (rect_tab _ _ _) Hr1).
  destruct a as [da ka]. rewrite (rect_cols da r1 c1 ka Ha Hr1).
  rewrite (sum_lr_ext c2 _ (fun j => sum_lr c1 (fun k => entry (Mk da ka) i k * entry b k j * entry c j l)))
    by (intros j Hj; rewrite entry_tab by assumption; unfold prod_entry;
        rewrite (rect_cols da r1 c1 ka Ha Hr1); apply sumZ_mul_r).
  rewrite (sum_lr_ext c1 (fun k => entry (Mk da ka) i k * entry (Mk (tab c1 c3 (prod_entry b c)) None) k l)
             (fun k => sum_lr c2 (fun j => entry (Mk da ka) i k * entry b k j * entry c j l))).
  - apply sumZ_swap.
  - intros k Hk. cbn [mul Elem_Z]. rewrite entry_tab by assumption. unfold prod_entry.
    destruct b as [db kb]. rewrite (rect_cols db c1 c2 kb Hb Hc1), sumZ_mul_l.
    apply sum_lr_ext. intros j _. cbn [mul Elem_Z]. ring.
Qed.

End IntProducts.

Module IntTests.
Local Open Scope Z_scope.

(** The scenarios of the test driver. *)
Example test_transpose_1 :
  snd (transpose (mZ [[1; 2; 3]])) = Ok (mZ [[1]; [2]; [3]]).
Proof. reflexivity. Qed.

Example test_transpose_2 :
  snd (transpose (mZ [[1; 2; 3]; [4; 5; 6]])) = Ok (mZ [[1; 4]; [2; 5]; [3; 6]]).
Proof. reflexivity. Qed.

Example test_multiply_1 :
  snd (multiply (mZ [[2; 1]]) (mZ [[1; 2; 3]; [4; 5; 6]])) = Ok (mZ [[6; 9; 12]]).
Proof. reflexivity. Qed.

Example test_multiply_2 :
  snd (multiply (mZ [[1]; [2]; [3]]) (mZ [[1; 2; 3]]))
  = Ok (mZ [[1; 2; 3]; [2; 4; 6]; [3; 6; 9]]).
Proof. reflexivity. Qed.

Example test_multiply_empty :
  snd (multiply empty (mZ [[1; 2; 3]])) = Throw EmptyOperand.
Proof. reflexivity. Qed.

Example test_print :
  print (mZ [[1; 2]; [3; 4]]) = ("1 2 " ++ endl ++ "3 4 " ++ endl)%string.
Proof. reflexivity. Qed.

Example test_eq : eq (mZ [[1; 2]]) (mZ [[1; 2]]) = Ok true.
Proof. reflexivity. Qed.

End IntTests.

(** * Instances and counterexamples on [matrix<int>] *)

Local Open Scope Z_scope.

(** A row reference taken before [transpose()] and written through after
    it: [auto &r = m[0]; m.transpose(); r[0] = 10;] on [{{1, 2, 3}}]. *)
Lemma transpose_contract_witness :
  rect (_data (mZ [[1; 2; 3]])) 1 3 /\ fresh (mZ [[1; 2; 3]]) /\
  exists m' mT, transpose (mZ [[1; 2; 3]]) = (m', Ok mT) /\ rows mT = cols (mZ [[1; 2; 3]]).
Proof.
  split; [split; [reflexivity | repeat constructor] | split; [exact I|]].
  destruct (transpose_contract (mZ [[1; 2; 3]]) 1 3) as [m' [mT [E [Hr _]]]].
  - split; [reflexivity | repeat constructor].
  - exact I.
  - exists m', mT. split; [exact E | exact Hr].
Defined.

(** [{{}}] has one row and no column; its transpose has no row, hence
    no column.  A stale cache is returned as it is. *)
Lemma transpose_contract_counterexample :
  (rect (_data (mZ [[]])) 1 0 /\ snd (transpose (mZ [[]])) = Ok (mZ []) /\
   cols (mZ []) <> rows (mZ [[]])) /\
  (let m := fst (run [OpRowRef 0%nat; OpTranspose; OpWriteRef 0%nat 0%nat 10] (mZ [[1; 2; 3]])) in
   _data m = [[10; 2; 3]] /\ snd (transpose m) = Ok (mZ [[1]; [2]; [3]]) /\
   elem (mZ [[1]; [2]; [3]]) 0 0 <> elem m 0 0).
Proof.
  split.
  - split; [split; [reflexivity | repeat constructor]|].
    split; [reflexivity | discriminate].
  - split; [reflexivity | split; [reflexivity | discriminate]].
Qed.

Lemma cache_freshness_counterexample :
  let m := fst (run [OpRowRef 0%nat; OpTranspose; OpWriteRef 0%nat 0%nat 10] (mZ [[1; 2; 3]])) in
  _data m = [[10; 2; 3]] /\ ~ fresh m /\ snd (transpose m) = Ok (mZ [[1]; [2]; [3]]).
Proof.
  split; [reflexivity|]. split; [|reflexivity].
  unfold fresh. vm_compute. intros [_ Hc]. discriminate Hc.
Qed.

Lemma multiply_correct_witness :
  rect (_data (mZ [[1; 2]])) 1 2 /\ rect (_data (mZ [[3]; [4]])) 2 1 /\
  fresh (mZ [[3]; [4]]) /\
  exists m1' m2' p, multiply (mZ [[1; 2]]) (mZ [[3]; [4]]) = ((m1', m2'), Ok p) /\
    elem p 0 0 = Some (sum_lr 2 (fun k => mul (entry (mZ [[1; 2]]) 0 k) (entry (mZ [[3]; [4]]) k 0))).
Proof.
  split; [split; [reflexivity | repeat constructor]|].
  split; [split; [reflexivity | repeat constructor]|].
  split; [exact I|].
  destruct (multiply_correct (mZ [[1; 2]]) (mZ [[3]; [4]]) 1 2 2 1)
    as [m1' [m2' [p [E [_ [_ Hp]]]]]].
  - split; [reflexivity | repeat constructor].
  - split; [reflexivity | repeat constructor].
  - lia.
  - lia.
  - reflexivity.
  - exact I.
  - exists m1', m2', p. split; [exact E|]. apply (Hp 0%nat 0%nat); vm_compute; lia.
Defined.

(** [m2]'s cache is stale: [multiply] uses it and computes [1 * 1], not
    [1 * 10]. *)
Lemma multiply_correct_counterexample :
  let m2 := fst (run [OpRowRef 0%nat; OpTranspose; OpWriteRef 0%nat 0%nat 10] (mZ [[1]])) in
  rect (_data m2) 1 1 /\ _data m2 = [[10]] /\
  snd (multiply (mZ [[1]]) m2) = Ok (mZ [[1]]).
Proof.
  split; [split; [reflexivity | repeat constructor]|]. split; reflexivity.
Qed.

Lemma row_access_out_of_range_witness :
  (rows (mZ [[1%Z]]) <= 1)%nat /\
  at_ (mZ [[1]]) 1 = Throw IndexOutOfRange /\ snd (at_mut 1 (mZ [[1]])) = Undefined /\
  _cache (fst (at_mut 1 (mZ [[1]]))) = None.
Proof.
  split; [vm_compute; lia|]. apply (row_access_out_of_range (mZ [[1]]) 1). vm_compute. lia.
Defined.

(** [{{1}} * {{}, {}}]: inner dimensions [1 != 2], no error. *)
Lemma dot_dimension_mismatch_counterexample :
  rect (_data (mZ [[1]])) 1 1 /\ rect (_data (mZ [[]; []])) 2 0 /\
  cols (mZ [[1]]) <> rows (mZ [[]; []]) /\
  multiply (mZ [[1]]) (mZ [[]; []]) = ((mZ [[1]], mZ [[]; []]), Ok (mZ [[]])).
Proof.
  split; [split; [reflexivity | repeat constructor]|].
  split; [split; [reflexivity | repeat constructor]|].
  split; [discriminate | reflexivity].
Qed.

Lemma transpose_involution_witness :
  rect (_data (mZ [[1; 2]; [3; 4]])) 2 2 /\ fresh (mZ [[1; 2]; [3; 4]]) /\
  exists m1 t m2 tt, transpose (mZ [[1; 2]; [3; 4]]) = (m1, Ok t) /\
    transpose t = (m2, Ok tt) /\ _data tt = _data (mZ [[1; 2]; [3; 4]]).
Proof.
  split; [split; [reflexivity | repeat constructor]|]. split; [exact I|].
  destruct (transpose_involution (mZ [[1; 2]; [3; 4]]) 2 2) as [Hi _].
  - split; [reflexivity | repeat constructor].
  - exact I.
  - apply Hi; lia.
Defined.

(** [{{}}]: two transposes give the empty matrix, which differs from
    [{{}}]; and a stale cache breaks the involution. *)
Lemma transpose_involution_counterexample :
  (rows (mZ [[]]) = 1%nat /\ snd (transpose (mZ [[]])) = Ok (mZ []) /\
   snd (transpose (mZ [])) = Ok (mZ []) /\ eq (mZ []) (mZ [[]]) = Ok false) /\
  (let m := fst (run [OpRowRef 0%nat; OpTranspose; OpWriteRef 0%nat 0%nat 10] (mZ [[1; 2; 3]])) in
   rows m = 1%nat /\
   exists t, snd (transpose m) = Ok t /\ snd (transpose t) = Ok (mZ [[1; 2; 3]]) /\
   eq (mZ [[1; 2; 3]]) m = Ok false).
Proof.
  split; [repeat split; reflexivity|].
  split; [reflexivity|]. eexists. split; [reflexivity | split; reflexivity].
Qed.

Lemma matrix_equality_witness :
  rect (_data (mZ [[1; 2]])) 1 2 /\ rect (_data (mZ [[1; 3]])) 1 2 /\
  exists v, eq (mZ [[1; 2]]) (mZ [[1; 3]]) = Ok v /\ neq (mZ [[1; 2]]) (mZ [[1; 3]]) = Ok (negb v).
Proof.
  split; [split; [reflexivity | repeat constructor]|].
  split; [split; [reflexivity | repeat constructor]|].
  destruct (matrix_equality (mZ [[1; 2]]) (mZ [[1; 3]]) 1 2 1 2) as [_ [Hv _]].
  - split; [reflexivity | repeat constructor].
  - split; [reflexivity | repeat constructor].
  - exact Hv.
Defined.

(** [m1] holds its transpose in its cache; [m2 = {{}}] has no column, the
    loop body never runs and the cache of [m1] stays. *)
Lemma multiply_frame_counterexample :
  let m1 := fst (transpose (mZ [[1]])) in
  _cache m1 = Some (mZ [[1]]) /\ rows m1 = 1%nat /\ rows (mZ [[]]) = 1%nat /\
  _cache (fst (fst (multiply m1 (mZ [[]])))) = Some (mZ [[1]]).
Proof. repeat split; reflexivity. Qed.

(** The last element of a row is followed by a space too. *)
Lemma print_format_counterexample :
  print (mZ [[1; 2]]) = ("1 2 " ++ endl)%string /\
  print_spec (mZ [[1; 2]]) = ("1 2" ++ endl)%string /\
  print (mZ [[1; 2]]) <> print_spec (mZ [[1; 2]]).
Proof.
  split; [reflexivity|]. split; [reflexivity|].
  vm_compute. discriminate.
Qed.

(** ** Instances of the further properties *)

Lemma assign_in_range_witness :
  rect (_data (mZ [[1; 2]; [3; 4]])) 2 2 /\
  snd (assign 1%nat 0%nat 9 (mZ [[1; 2]; [3; 4]])) = Ok tt /\
  elem (fst (assign 1%nat 0%nat 9 (mZ [[1; 2]; [3; 4]]))) 1%nat 0%nat = Some 9.
Proof.
  split; [split; [reflexivity | repeat constructor]|].
  destruct (assign_in_range (mZ [[1; 2]; [3; 4]]) 2 2 1 0 9) as [Hs [_ [_ He]]].
  - split; [reflexivity | repeat constructor].
  - lia.
  - lia.
  - split; [exact Hs|]. rewrite He. reflexivity.
Defined.

Lemma assign_out_of_range_witness :
  le (List.length (nth 0%nat (_data (mZ [[1; 2]])) [])) 2%nat /\
  assign 0%nat 2%nat 9 (mZ [[1; 2]]) = (mZ [[1; 2]], Undefined).
Proof.
  split; [vm_compute; lia|].
  apply (assign_out_of_range (mZ [[1; 2]]) 0 2 9). vm_compute; lia.
Defined.

Lemma dot_swap_witness :
  (forall x y : Z, mul x y = mul y x) /\
  dot [3] [1; 2] = Throw (DimensionMismatch 1 2) /\ dot [3; 4] [1; 2] = Ok 11.
Proof.
  assert (Hc : forall x y : Z, mul x y = mul y x) by (intros x y; apply Z.mul_comm).
  split; [exact Hc|]. split.
  - rewrite (dot_swap [1; 2] [3] Hc). reflexivity.
  - rewrite (dot_swap [1; 2] [3; 4] Hc). reflexivity.
Defined.

Lemma dot_app_witness :
  dot ([1] ++ [2]) ([3] ++ [4]) = Ok 11.
Proof.
  rewrite (dot_app [1] [2] [3] [4]).
  - reflexivity.
  - intros x y z. apply Z.add_assoc.
  - intros x. apply Z.add_0_r.
  - reflexivity.
  - reflexivity.
Defined.

Lemma eq_refl_rect_witness :
  rect (_data (mZ [[1; 2]; [3; 4]])) 2 2 /\ eq (mZ [[1; 2]; [3; 4]]) (mZ [[1; 2]; [3; 4]]) = Ok true.
Proof.
  split; [split; [reflexivity | repeat constructor]|].
  apply (eq_refl_rect _ 2 2).
  - intros x. apply Z.eqb_refl.
  - split; [reflexivity | repeat constructor].
Defined.

Lemma eq_sym_rect_witness :
  eq (mZ [[1; 2]]) (mZ [[1]; [2]]) = eq (mZ [[1]; [2]]) (mZ [[1; 2]]).
Proof.
  apply (eq_sym_rect _ _ 1 2 2 1).
  - intros x y. apply Z.eqb_sym.
  - split; [reflexivity | repeat constructor].
  - split; [reflexivity | repeat constructor].
Defined.

Lemma print_lines_witness :
  count_char newline (print (mZ [[1; -2]; [30; 4]])) = rows (mZ [[1; -2]; [30; 4]]).
Proof.
  apply print_lines. repeat constructor.
Defined.

Lemma invalid_dimension_what_inj_witness :
  invalid_dimension_what 3 4 = invalid_dimension_what 3 4 /\ 3%nat = 3%nat /\ 4%nat = 4%nat.
Proof.
  split; [reflexivity|]. apply (invalid_dimension_what_inj 3 4 3 4). reflexivity.
Defined.

Lemma transpose_wide_witness :
  _cache (mZ [[1; 2]; [3; 4; 5]]) = None /\
  exists t, transpose (mZ [[1; 2]; [3; 4; 5]]) = (Mk (_data (mZ [[1; 2]; [3; 4; 5]])) (Some t), Ok t) /\
    _cache t = None.
Proof.
  split; [reflexivity|].
  destruct (transpose_wide (mZ [[1; 2]; [3; 4; 5]])) as [t [E [Hc _]]].
  - reflexivity.
  - vm_compute; lia.
  - repeat constructor.
  - exists t. split; [exact E | exact Hc].
Defined.

Lemma transpose_short_row_witness :
  lt 1%nat (cols (mZ [[1; 2]; [3]])) /\
  transpose (mZ [[1; 2]; [3]]) = (mZ [[1; 2]; [3]], Undefined).
Proof.
  split; [vm_compute; lia|].
  apply (transpose_short_row _ 1 1).
  - reflexivity.
  - vm_compute; lia.
  - vm_compute; lia.
  - vm_compute; lia.
Defined.

Lemma multiply_transpose_witness :
  exists s1 p s2 pt s3 t1 s4 t2 s5 q,
    multiply (mZ [[1; 2]]) (mZ [[3]; [4]]) = (s1, Ok p) /\ transpose p = (s2, Ok pt) /\
    transpose (mZ [[1; 2]]) = (s3, Ok t1) /\ transpose (mZ [[3]; [4]]) = (s4, Ok t2) /\
    multiply t2 t1 = (s5, Ok q) /\ _data pt = _data q.
Proof.
  apply (multiply_transpose _ _ 1 2 1).
  - intros x y. apply Z.mul_comm.
  - split; [reflexivity | repeat constructor].
  - split; [reflexivity | repeat constructor].
  - lia.
  - lia.
  - lia.
  - exact I.
  - exact I.
Defined.

Lemma multiply_assoc_witness :
  exists s1 ab s2 abc s3 bc s4 abc',
    multiply (mZ [[1; 2]]) (mZ [[3]; [4]]) = (s1, Ok ab) /\ multiply ab (mZ [[5; 6]]) = (s2, Ok abc) /\
    multiply (mZ [[3]; [4]]) (mZ [[5; 6]]) = (s3, Ok bc) /\ multiply (mZ [[1; 2]]) bc = (s4, Ok abc') /\
    _data abc = _data abc'.
Proof.
  apply (multiply_assoc _ _ _ 1 2 1 2).
  - split; [reflexivity | repeat constructor].
  - split; [reflexivity | repeat constructor].
  - split; [reflexivity | repeat constructor].
  - lia.
  - lia.
  - lia.
  - lia.
  - exact I.
  - exact I.
Defined.

Lemma multiply_no_columns_witness :
  cols (mZ [[1; 2; 3]]) = 3%nat /\ rows (mZ [[]]) = 1%nat /\
  multiply (mZ [[1; 2; 3]]) (mZ [[]]) = ((mZ [[1; 2; 3]], mZ [[]]), Ok (mZ [[]])).
Proof.
  split; [reflexivity|]. split; [reflexivity|].
  rewrite (multiply_no_columns (mZ [[1; 2; 3]]) (mZ [[]])
             ltac:(vm_compute; discriminate) ltac:(vm_compute; discriminate) eq_refl).
  reflexivity.
Defined.
